(** * k-diffusion [train.py]: the training orchestrator and its collaborators

    A shallow embedding of [main] of [train.py]: the resume path, the
    metrics log, the closures [demo], [evaluate] and [save], and the body
    of the training loop with its periodic triggers.  Python integers are
    [Z], Python floats are idealised as real numbers, the checkpoint is
    the dictionary the code builds (a finite map from field names to
    values), and the code's exceptions are an error result.  The helpers
    of the [k_diffusion] package that [train.py] calls are modelled from
    their specification, each marked as such. *)

From Stdlib Require Import ZArith List String Ascii Reals Lra Lia.
From Stdlib Require Import DecimalString DecimalZ Sorted.
From stdpp Require Import gmap strings.
Import ListNotations.

Local Open Scope Z_scope.

(** ** Exceptions and the execution monad *)

Inductive PyError : Type :=
| ZeroDivisionError
| KeyError (key : string)
| TypeError
| AttributeError
| FileNotFoundError (path : string).

Inductive result (A : Type) : Type :=
| Ok (a : A)
| Raise (e : PyError).
Arguments Ok {A} a.
Arguments Raise {A} e.

(** The externally visible actions of one pass through the loop body, in
    the order the statements run.  An evaluation is logged with the step
    and the two metrics it prints. *)
Inductive Event : Type :=
| EvZeroGrad
| EvBackward
| EvGnsUpdate
| EvOptStep
| EvSchedStep
| EvEmaUpdate (decay : R)
| EvEmaSchedStep
| EvDemo (step : Z)
| EvEvaluate (step : Z) (fid kid : string)
| EvSave (step : Z).

(** A computation runs on the files of the run: it logs the events it
    performed, leaves the files as it wrote them, and either returns a
    value or raises.  Events and writes made before a raise stay. *)
Definition Exec (W A : Type) : Type := W -> list Event * W * result A.

Definition ret {W A} (a : A) : Exec W A := fun w => ([], w, Ok a).
Definition raise {W A} (e : PyError) : Exec W A := fun w => ([], w, Raise e).
Definition emit {W} (e : Event) : Exec W unit := fun w => ([e], w, Ok tt).
Definition modify {W} (f : W -> W) : Exec W unit := fun w => ([], f w, Ok tt).

Definition bind {W A B} (m : Exec W A) (f : A -> Exec W B) : Exec W B :=
  fun w =>
    match m w with
    | (t, w1, Ok a) => let '(t', w2, r) := f a w1 in ((t ++ t')%list, w2, r)
    | (t, w1, Raise e) => (t, w1, Raise e)
    end.

Notation "'let*' x ':=' m 'in' k" := (bind m (fun x => k))
  (at level 10, x name, m at level 100, k at level 200).
Notation "m ';;' k" := (bind m (fun _ => k))
  (at level 100, k at level 200, right associativity).

Definition trace_of {W A} (x : list Event * W * result A) : list Event :=
  fst (fst x).
Definition world_of {W A} (x : list Event * W * result A) : W := snd (fst x).
Definition outcome {W A} (x : list Event * W * result A) : result A := snd x.

(** ** Python integer operations *)

(** [a % b] on Python integers: floored modulo, the sign of the divisor,
    and [ZeroDivisionError] for a zero divisor. *)
Definition py_mod {W} (a b : Z) : Exec W Z :=
  if b =? 0 then raise ZeroDivisionError else ret (a mod b).

(** [str(z)] and the format [{z:08}]: decimal digits, zero-filled to width
    eight with the sign, if any, in front. *)
Definition py_str (z : Z) : string := NilZero.string_of_int (Z.to_int z).

Definition zfill (width : nat) (digits : string) : string :=
  String.concat EmptyString (repeat "0"%string (width - String.length digits))
  +:+ digits.

Definition newline : string := String "010"%char EmptyString.

Definition fmt08 (z : Z) : string :=
  if z <? 0 then "-" +:+ zfill 7 (py_str (- z)) else zfill 8 (py_str z).

(** ** Command-line arguments and the execution context *)

Record Args : Type := mkArgs {
  batch_size : Z;
  demo_every : Z;
  evaluate_every : Z;
  gns : bool;
  lr : R;
  name : string;
  resume : option string;
  save_every : Z
}.

(** What [accelerate.Accelerator] tells the process about itself. *)
Record Accelerator : Type := mkAccelerator {
  is_main_process : bool;
  num_processes : Z
}.

(** ** Floats, idealised as real numbers *)

(** [x ** y] on non-negative floats: [0 ** 0 = 1], [0 ** y = 0] for a
    positive [y], and the usual power elsewhere. *)
Definition fpow (x y : R) : R :=
  if Req_dec_T x 0 then (if Req_dec_T y 0 then 1%R else 0%R)
  else Rpower x y.

(** Tensors are flat lists of floats; the elementwise operations pair the
    entries up (shapes agree wherever the program combines two tensors). *)
Definition Tensor : Type := list R.

Definition vadd (a b : Tensor) : Tensor := zip_with Rplus a b.
Definition vsub (a b : Tensor) : Tensor := zip_with Rminus a b.
Definition vscale (c : R) (a : Tensor) : Tensor := map (Rmult c) a.
Definition vdiv (a : Tensor) (c : R) : Tensor := map (fun v => (v / c)%R) a.
Definition vzero (n : nat) : Tensor := repeat 0%R n.

(** ** [k_diffusion.utils]: the EMA warmup schedule *)

(** Modelled from the spec: [utils.EMAWarmup] is not part of [train.py].
    Its state is one step counter with the fixed [power] and [max_value]. *)
Record EMAWarmup : Type := mkEMAWarmup {
  ema_power : R;
  ema_max_value : R;
  ema_last_epoch : Z
}.

(** Modelled from the spec: [decay(step) = min(max_value,
    (1 - 1/(step + 1))^power)], the decay as a function of the counter. *)
Definition decay (power max_value : R) (step : Z) : R :=
  Rmin max_value (fpow (1 - 1 / (IZR step + 1)) power).

(** Modelled from the spec: [EMAWarmup.get_value], the decay at the
    current counter. *)
Definition ema_get_value (s : EMAWarmup) : R :=
  decay (ema_power s) (ema_max_value s) (ema_last_epoch s).

(** Modelled from the spec: [EMAWarmup.step], the counter increments once
    per call. *)
Definition ema_sched_step (s : EMAWarmup) : EMAWarmup :=
  {| ema_power := ema_power s;
     ema_max_value := ema_max_value s;
     ema_last_epoch := ema_last_epoch s + 1 |}.

(** Modelled from the spec: [utils.ema_update], [shadow = decay * shadow +
    (1 - decay) * live] for every parameter pair. *)
Definition ema_update (live shadow : Tensor) (d : R) : Tensor :=
  zip_with (fun s l => (d * s + (1 - d) * l)%R) shadow live.

(** ** [k_diffusion.utils]: the learning-rate schedule *)

(** Modelled from the spec: [utils.InverseLR] is not part of [train.py].
    Its state is one step counter with the fixed [inv_gamma], [power] and
    [warmup]; [base_lr] is the optimizer's configured rate it scales. *)
Record InverseLR : Type := mkInverseLR {
  base_lr : R;
  inv_gamma : R;
  lr_power : R;
  warmup : R;
  lr_last_epoch : Z
}.

(** Modelled from the spec: [multiplier(step) = (1 - warmup^(step + 1)) *
    (1 + step / inv_gamma)^(-power)]. *)
Definition multiplier (s : InverseLR) (step : Z) : R :=
  ((1 - fpow (warmup s) (IZR step + 1))
   * fpow (1 + IZR step / inv_gamma s) (- lr_power s))%R.

(** Modelled from the spec: the multiplier scales the configured base
    learning rate. *)
Definition get_last_lr (s : InverseLR) : R :=
  (base_lr s * multiplier s (lr_last_epoch s))%R.

(** Modelled from the spec: [InverseLR.step] advances the one counter. *)
Definition sched_advance (s : InverseLR) : InverseLR :=
  {| base_lr := base_lr s; inv_gamma := inv_gamma s; lr_power := lr_power s;
     warmup := warmup s; lr_last_epoch := lr_last_epoch s + 1 |}.

(** ** [k_diffusion.gns]: the gradient-noise-scale estimator *)

(** Modelled from the spec: [gns.GradientNoiseScale] is not part of
    [train.py].  Its state is the two smoothed scalars with the fixed decay
    constant and epsilon. *)
Record GradientNoiseScale : Type := mkGns {
  gns_beta : R;
  gns_eps : R;
  ema_sq_norm : R;
  ema_var : R
}.

(** Modelled from the spec: [GradientNoiseScale.update].  Equal sizes are a
    no-op; otherwise [G2_est] and [S_est] follow the two-batch-size
    decomposition and each is smoothed with the decay constant. *)
Definition gns_update (g : GradientNoiseScale)
    (small_norm large_norm : R) (small_size large_size : Z) : GradientNoiseScale :=
  if large_size =? small_size then g
  else
    let g2_est := ((IZR large_size * large_norm - IZR small_size * small_norm)
                   / (IZR large_size - IZR small_size))%R in
    let s_est := ((small_norm - large_norm)
                  / (1 / IZR small_size - 1 / IZR large_size))%R in
    {| gns_beta := gns_beta g;
       gns_eps := gns_eps g;
       ema_sq_norm := (gns_beta g * ema_sq_norm g + (1 - gns_beta g) * g2_est)%R;
       ema_var := (gns_beta g * ema_var g + (1 - gns_beta g) * s_est)%R |}.

(** Modelled from the spec: [get_gns() = S_smoothed / max(G2_smoothed,
    epsilon)]. *)
Definition get_gns (g : GradientNoiseScale) : R :=
  (ema_var g / Rmax (ema_sq_norm g) (gns_eps g))%R.

(** ** [k_diffusion.sampling]: the noise schedule and the sampler *)

(** Modelled from the spec: the [i]-th level of the Karras schedule,
    [(sigma_max^(1/rho) + i/(n-1) * (sigma_min^(1/rho) -
    sigma_max^(1/rho)))^rho]. *)
Definition karras_sigma (n : nat) (sigma_min sigma_max rho : R) (i : nat) : R :=
  fpow (fpow sigma_max (1 / rho)
        + INR i / (INR n - 1)
          * (fpow sigma_min (1 / rho) - fpow sigma_max (1 / rho))) rho.

(** Modelled from the spec: [sampling.get_sigmas_karras] is not part of
    [train.py].  [n] levels followed by an appended 0; the single-step
    schedule is [[sigma_max, 0]]. *)
Definition get_sigmas_karras (n : nat) (sigma_min sigma_max rho : R) : list R :=
  match n with
  | 1%nat => [sigma_max; 0%R]
  | _ => map (karras_sigma n sigma_min sigma_max rho) (seq 0 n) ++ [0%R]
  end.

(** [layers.Denoiser] is not part of [train.py]: the preconditioning around
    a backbone [f_theta], with the fixed [sigma_data], follows the spec. *)
Section Denoiser.
Variable inner_model : Tensor -> R -> Tensor.
Variable sigma_data : R.

(** Modelled from the spec: [c_skip(sigma) = sigma_data^2 / (sigma^2 +
    sigma_data^2)]. *)
Definition c_skip (sigma : R) : R :=
  (sigma_data ^ 2 / (sigma ^ 2 + sigma_data ^ 2))%R.
(** Modelled from the spec: [c_out(sigma) = sigma * sigma_data /
    sqrt(sigma^2 + sigma_data^2)]. *)
Definition c_out (sigma : R) : R :=
  (sigma * sigma_data / sqrt (sigma ^ 2 + sigma_data ^ 2))%R.
(** Modelled from the spec: [c_in(sigma) = 1 / sqrt(sigma^2 +
    sigma_data^2)]. *)
Definition c_in (sigma : R) : R :=
  (1 / sqrt (sigma ^ 2 + sigma_data ^ 2))%R.

(** Modelled from the spec: [D(x, sigma) = c_skip * x + c_out *
    f_theta(c_in * x, log(sigma) / 4)]. *)
Definition denoiser (x : Tensor) (sigma : R) : Tensor :=
  vadd (vscale (c_skip sigma) x)
       (vscale (c_out sigma)
               (inner_model (vscale (c_in sigma) x) (ln sigma / 4))).
End Denoiser.

(** [sampling.sample_lms] is not part of [train.py]: an order-4 linear
    multistep integration of [dx/dsigma = (x - D(x, sigma)) / sigma] over
    the schedule, with a history of at most four derivatives, follows the
    spec.  The spec leaves the Adams-Bashforth weights unnamed:
    [lms_coeff order sigmas i j] is the weight of the [j]-th most recent
    derivative at step [i]. *)
Section Sampler.
Variable lms_coeff : nat -> list R -> nat -> nat -> R.
Variable model : Tensor -> R -> Tensor.

(** Modelled from the spec: the derivative [(x - D(x, sigma)) / sigma]. *)
Definition to_d (x : Tensor) (sigma : R) (denoised : Tensor) : Tensor :=
  vdiv (vsub x denoised) sigma.

(** The sum of the weighted derivatives, from zero. *)
Definition vsum (n : nat) (terms : list Tensor) : Tensor :=
  fold_left vadd terms (vzero n).

(** Modelled from the spec: the loop of [sample_lms].
    [lms_steps sigmas n i x ds] runs [n] more steps from step [i], current
    state [x] and history [ds] (oldest first): one denoiser evaluation,
    the derivative appended and the oldest dropped beyond four, the
    weighted step with as many weights as history allows.  Returns the
    final state and the derivatives evaluated on the way. *)
Fixpoint lms_steps (sigmas : list R) (n i : nat) (x : Tensor)
    (ds : list Tensor) : Tensor * list Tensor :=
  match n with
  | O => (x, [])
  | S n' =>
      let sigma := nth i sigmas 0%R in
      let denoised := model x sigma in
      let d := to_d x sigma denoised in
      let ds1 := ds ++ [d] in
      let ds2 := if (4 <? length ds1)%nat then tl ds1 else ds1 in
      let cur_order := Nat.min (i + 1) 4 in
      let coeffs := map (lms_coeff cur_order sigmas i) (seq 0 cur_order) in
      let x' := vadd x (vsum (length x) (zip_with vscale coeffs (rev ds2))) in
      let '(x_0, rest) := lms_steps sigmas n' (S i) x' ds2 in
      (x_0, d :: rest)
  end.

(** Modelled from the spec: one step per schedule entry but the last;
    no derivative is evaluated at the terminal level. *)
Definition sample_lms_trace (x : Tensor) (sigmas : list R)
    : Tensor * list Tensor :=
  lms_steps sigmas (length sigmas - 1) 0 x [].

(** Modelled from the spec: [sampling.sample_lms], the final state. *)
Definition sample_lms (x : Tensor) (sigmas : list R) : Tensor :=
  fst (sample_lms_trace x sigmas).
End Sampler.

(** ** [train.py]: the state of [main] *)

Section Trainer.
(** The optimizer, the backbone and the multistep weights are external:
    [optimizer_step opt params grads] is [opt.step()], [set_lr] is the
    write of the scheduled rate into the optimizer. *)
Variable Optimizer : Type.
Variable optimizer_step : Optimizer -> Tensor -> Tensor -> Optimizer * Tensor.
Variable set_lr : Optimizer -> R -> Optimizer.
Variable inner_model : Tensor -> Tensor -> R -> Tensor.
Variable lms_coeff : nat -> list R -> nat -> nat -> R.

(** The local variables of [main] that the loop and the closures share. *)
Record TrainState : Type := mkTrainState {
  model : Tensor;
  model_ema : Tensor;
  opt : Optimizer;
  sched : InverseLR;
  ema_sched : EMAWarmup;
  gns_stats : option GradientNoiseScale;
  epoch : Z;
  step : Z
}.

(** The values a checkpoint dictionary holds. *)
Inductive CkptVal : Type :=
| VParams (p : Tensor)
| VOpt (o : Optimizer)
| VSched (s : InverseLR)
| VEmaSched (s : EMAWarmup)
| VGns (g : GradientNoiseScale)
| VInt (z : Z)
| VNone.

(** The files the run reads and writes: the metrics log (its characters,
    [None] while it does not exist), the checkpoints and the demo grids
    by file name. *)
Record World : Type := mkWorld {
  metrics_csv : option string;
  pth_files : gmap string (gmap string CkptVal);
  png_files : gmap string Tensor
}.

(** What one pass through the loop body draws from outside: the gradient
    left by [accelerator.backward], the gathered gradient statistics, the
    noise of the demo and the printed metrics of the evaluation. *)
Record StepInput : Type := mkStepInput {
  grads : Tensor;
  sq_norm_small_batch : R;
  sq_norm_large_batch : R;
  demo_noise : Tensor;
  fid_item : string;
  kid_item : string
}.

Definition sigma_min : R := (1 / 100)%R.
Definition sigma_max : R := 80%R.


(** *** Resume (lines 99-113) *)

Definition ckpt_get (ckpt : gmap string CkptVal) (key : string)
    : Exec World CkptVal :=
  match ckpt !! key with
  | Some v => ret v
  | None => raise (KeyError key)
  end.

Definition as_params (v : CkptVal) : Exec World Tensor :=
  match v with VParams p => ret p | _ => raise TypeError end.
Definition as_opt (v : CkptVal) : Exec World Optimizer :=
  match v with VOpt o => ret o | _ => raise TypeError end.
Definition as_sched (v : CkptVal) : Exec World InverseLR :=
  match v with VSched s => ret s | _ => raise TypeError end.
Definition as_ema_sched (v : CkptVal) : Exec World EMAWarmup :=
  match v with VEmaSched s => ret s | _ => raise TypeError end.
Definition as_gns (v : CkptVal) : Exec World GradientNoiseScale :=
  match v with VGns g => ret g | _ => raise TypeError end.
Definition as_int (v : CkptVal) : Exec World Z :=
  match v with VInt z => ret z | _ => raise TypeError end.

Definition torch_load (path : string) : Exec World (gmap string CkptVal) :=
  fun w =>
    match pth_files w !! path with
    | Some ckpt => ret ckpt w
    | None => raise (FileNotFoundError path) w
    end.

(** [gns_stats] is loaded only under [args.gns and 'gns_stats' in ckpt
    and ckpt['gns_stats'] is not None]. *)
Definition resume_gns (args : Args) (ckpt : gmap string CkptVal)
    (cur : option GradientNoiseScale)
    : Exec World (option GradientNoiseScale) :=
  if gns args then
    match ckpt !! "gns_stats"%string with
    | Some VNone | None => ret cur
    | Some v =>
        match cur with
        | Some _ => let* g := as_gns v in ret (Some g)
        | None => raise AttributeError
        end
    end
  else ret cur.

Definition resume_from (args : Args) (ckpt : gmap string CkptVal)
    (st : TrainState) : Exec World TrainState :=
  let* v_model := ckpt_get ckpt "model" in
  let* p := as_params v_model in
  let* v_ema := ckpt_get ckpt "model_ema" in
  let* p_ema := as_params v_ema in
  let* v_opt := ckpt_get ckpt "opt" in
  let* o := as_opt v_opt in
  let* v_sched := ckpt_get ckpt "sched" in
  let* sc := as_sched v_sched in
  let* v_es := ckpt_get ckpt "ema_sched" in
  let* es := as_ema_sched v_es in
  let* v_epoch := ckpt_get ckpt "epoch" in
  let* e := as_int v_epoch in
  let* v_step := ckpt_get ckpt "step" in
  let* s := as_int v_step in
  let* g := resume_gns args ckpt (gns_stats st) in
  ret {| model := p; model_ema := p_ema; opt := o; sched := sc;
         ema_sched := es; gns_stats := g;
         epoch := e + 1; step := s + 1 |}.

(** The objects built before the resume branch (lines 74-97): the
    schedules start at counter 0 and the EMA model is a copy of the
    model. *)
Definition fresh_state (args : Args) (params : Tensor) (opt0 : Optimizer)
    (gns0 : GradientNoiseScale) : TrainState :=
  {| model := params;
     model_ema := params;
     opt := opt0;
     sched := mkInverseLR (lr args) 50000 (1 / 2) (99 / 100) 0;
     ema_sched := mkEMAWarmup (3 / 4) (999 / 1000) 0;
     gns_stats := if gns args then Some gns0 else None;
     epoch := 0;
     step := 0 |}.

(** [if args.resume:] takes the branch for a non-empty path. *)
Definition load_or_init (args : Args) (st : TrainState)
    : Exec World TrainState :=
  match resume args with
  | Some (String c path) =>
      let* ckpt := torch_load (String c path) in
      resume_from args ckpt st
  | _ => ret st
  end.

(** *** The metrics log (lines 119-125) *)

Definition metrics_header : string := "step,fid,kid" +:+ newline.

(** An existing file is opened for appending; a missing one is created
    and gets the header. *)
Definition open_metrics_file (w : World) : World :=
  match metrics_csv w with
  | Some _ => w
  | None => {| metrics_csv := Some metrics_header;
               pth_files := pth_files w; png_files := png_files w |}
  end.

Definition open_metrics_log (acc : Accelerator) : Exec World unit :=
  if is_main_process acc then modify open_metrics_file else ret tt.

Definition main_setup (args : Args) (acc : Accelerator) (params : Tensor)
    (opt0 : Optimizer) (gns0 : GradientNoiseScale) : Exec World TrainState :=
  let* st := load_or_init args (fresh_state args params opt0 gns0) in
  open_metrics_log acc ;;
  ret st.

(** *** The closures [demo], [evaluate] and [save] (lines 130-183) *)

Definition write_png (filename : string) (grid : Tensor) (w : World) : World :=
  {| metrics_csv := metrics_csv w; pth_files := pth_files w;
     png_files := <[filename := grid]> (png_files w) |}.

Definition demo (args : Args) (acc : Accelerator) (inp : StepInput)
    (st : TrainState) : Exec World unit :=
  emit (EvDemo (step st)) ;;
  let filename := name args +:+ "_demo_" +:+ fmt08 (step st) +:+ ".png" in
  let x := vscale sigma_max (demo_noise inp) in
  let sigmas := get_sigmas_karras 50 sigma_min sigma_max 7 in
  let x_0 :=
    sample_lms lms_coeff (denoiser (inner_model (model_ema st)) (1 / 2))
               x sigmas in
  if is_main_process acc then modify (write_png filename x_0) else ret tt.

(** [print(step, fid, kid, sep=',')]: one line. *)
Definition metrics_row (n : Z) (fid kid : string) : string :=
  py_str n +:+ "," +:+ fid +:+ "," +:+ kid +:+ newline.

Definition print_to_log (line : string) (w : World) : World :=
  {| metrics_csv := Some (default EmptyString (metrics_csv w) +:+ line);
     pth_files := pth_files w; png_files := png_files w |}.

Definition evaluate (acc : Accelerator) (inp : StepInput)
    (st : TrainState) : Exec World unit :=
  emit (EvEvaluate (step st) (fid_item inp) (kid_item inp)) ;;
  if is_main_process acc then
    modify (print_to_log (metrics_row (step st) (fid_item inp) (kid_item inp)))
  else ret tt.

(** The dictionary [obj] of [save], field by field. *)
Definition checkpoint_of (st : TrainState) : gmap string CkptVal :=
  list_to_map
    [ ("model"%string, VParams (model st));
      ("model_ema"%string, VParams (model_ema st));
      ("opt"%string, VOpt (opt st));
      ("sched"%string, VSched (sched st));
      ("ema_sched"%string, VEmaSched (ema_sched st));
      ("epoch"%string, VInt (epoch st));
      ("step"%string, VInt (step st));
      ("gns_stats"%string,
       match gns_stats st with Some g => VGns g | None => VNone end) ].

Definition write_pth (filename : string) (obj : gmap string CkptVal)
    (w : World) : World :=
  {| metrics_csv := metrics_csv w;
     pth_files := <[filename := obj]> (pth_files w);
     png_files := png_files w |}.

Definition pth_name (args : Args) (n : Z) : string :=
  name args +:+ "_" +:+ fmt08 n +:+ ".pth".

(** [accelerator.save] writes the file on the main process. *)
Definition save (args : Args) (acc : Accelerator) (st : TrainState)
    : Exec World unit :=
  emit (EvSave (step st)) ;;
  if is_main_process acc then
    modify (write_pth (pth_name args (step st)) (checkpoint_of st))
  else ret tt.

(** *** The loop body (lines 187-229) *)

(** Lines 187-195: gradients, and the GNS reading when [args.gns]. *)
Definition backward_phase (args : Args) (acc : Accelerator)
    (inp : StepInput) (st : TrainState) : Exec World TrainState :=
  emit EvZeroGrad ;;
  emit EvBackward ;;
  if gns args then
    match gns_stats st with
    | Some g =>
        emit EvGnsUpdate ;;
        ret {| model := model st; model_ema := model_ema st; opt := opt st;
               sched := sched st; ema_sched := ema_sched st;
               gns_stats :=
                 Some (gns_update g (sq_norm_small_batch inp)
                         (sq_norm_large_batch inp) (batch_size args)
                         (batch_size args * num_processes acc));
               epoch := epoch st; step := step st |}
    | None => raise AttributeError
    end
  else ret st.

(** Lines 196-200: the optimizer, the LR schedule, then the EMA. *)
Definition update_phase (inp : StepInput) (st : TrainState)
    : Exec World TrainState :=
  let '(opt1, model1) := optimizer_step (opt st) (model st) (grads inp) in
  emit EvOptStep ;;
  let sched1 := sched_advance (sched st) in
  let opt2 := set_lr opt1 (get_last_lr sched1) in
  emit EvSchedStep ;;
  let ema_decay := ema_get_value (ema_sched st) in
  let model_ema1 := ema_update model1 (model_ema st) ema_decay in
  emit (EvEmaUpdate ema_decay) ;;
  let ema_sched1 := ema_sched_step (ema_sched st) in
  emit EvEmaSchedStep ;;
  ret {| model := model1; model_ema := model_ema1; opt := opt2;
         sched := sched1; ema_sched := ema_sched1;
         gns_stats := gns_stats st; epoch := epoch st; step := step st |}.

(** Lines 220-227: the three periodic triggers. *)
Definition demo_trigger (args : Args) (acc : Accelerator) (inp : StepInput)
    (st : TrainState) : Exec World unit :=
  let* r := py_mod (step st) (demo_every args) in
  if r =? 0 then demo args acc inp st else ret tt.

Definition evaluate_trigger (args : Args) (acc : Accelerator)
    (inp : StepInput) (st : TrainState) : Exec World unit :=
  if (0 <? step st) && (0 <? evaluate_every args) then
    let* r := py_mod (step st) (evaluate_every args) in
    if r =? 0 then evaluate acc inp st else ret tt
  else ret tt.

Definition save_trigger (args : Args) (acc : Accelerator)
    (st : TrainState) : Exec World unit :=
  if 0 <? step st then
    let* r := py_mod (step st) (save_every args) in
    if r =? 0 then save args acc st else ret tt
  else ret tt.

Definition periodic_phase (args : Args) (acc : Accelerator)
    (inp : StepInput) (st : TrainState) : Exec World unit :=
  demo_trigger args acc inp st ;;
  evaluate_trigger args acc inp st ;;
  save_trigger args acc st.

Definition incr_step (st : TrainState) : TrainState :=
  {| model := model st; model_ema := model_ema st; opt := opt st;
     sched := sched st; ema_sched := ema_sched st;
     gns_stats := gns_stats st; epoch := epoch st; step := step st + 1 |}.

Definition incr_epoch (st : TrainState) : TrainState :=
  {| model := model st; model_ema := model_ema st; opt := opt st;
     sched := sched st; ema_sched := ema_sched st;
     gns_stats := gns_stats st; epoch := epoch st + 1; step := step st |}.

Definition train_iteration (args : Args) (acc : Accelerator)
    (inp : StepInput) (st : TrainState) : Exec World TrainState :=
  let* st1 := backward_phase args acc inp st in
  let* st2 := update_phase inp st1 in
  periodic_phase args acc inp st2 ;;
  ret (incr_step st2).

(** One pass over the data loader, then [epoch += 1]. *)
Fixpoint run_batches (args : Args) (acc : Accelerator)
    (batches : list StepInput) (st : TrainState) : Exec World TrainState :=
  match batches with
  | [] => ret st
  | inp :: rest =>
      let* st' := train_iteration args acc inp st in
      run_batches args acc rest st'
  end.

Definition run_epoch (args : Args) (acc : Accelerator)
    (batches : list StepInput) (st : TrainState) : Exec World TrainState :=
  let* st' := run_batches args acc batches st in
  ret (incr_epoch st').

(** The first passes of [while True]. *)
Fixpoint run_epochs (args : Args) (acc : Accelerator)
    (epochs : list (list StepInput)) (st : TrainState)
    : Exec World TrainState :=
  match epochs with
  | [] => ret st
  | batches :: rest =>
      let* st' := run_epoch args acc batches st in
      run_epochs args acc rest st'
  end.

End Trainer.

Arguments mkTrainState {Optimizer}.
Arguments model {Optimizer}.
Arguments model_ema {Optimizer}.
Arguments opt {Optimizer}.
Arguments sched {Optimizer}.
Arguments ema_sched {Optimizer}.
Arguments gns_stats {Optimizer}.
Arguments epoch {Optimizer}.
Arguments step {Optimizer}.
Arguments VParams {Optimizer}.
Arguments VOpt {Optimizer}.
Arguments VSched {Optimizer}.
Arguments VEmaSched {Optimizer}.
Arguments VGns {Optimizer}.
Arguments VInt {Optimizer}.
Arguments VNone {Optimizer}.
Arguments mkWorld {Optimizer}.
Arguments metrics_csv {Optimizer}.
Arguments pth_files {Optimizer}.
Arguments png_files {Optimizer}.
Arguments ckpt_get {Optimizer}.
Arguments as_params {Optimizer}.
Arguments as_opt {Optimizer}.
Arguments as_sched {Optimizer}.
Arguments as_ema_sched {Optimizer}.
Arguments as_gns {Optimizer}.
Arguments as_int {Optimizer}.
Arguments torch_load {Optimizer}.
Arguments resume_gns {Optimizer}.
Arguments resume_from {Optimizer}.
Arguments fresh_state {Optimizer}.
Arguments load_or_init {Optimizer}.
Arguments open_metrics_file {Optimizer}.
Arguments open_metrics_log {Optimizer}.
Arguments main_setup {Optimizer}.
Arguments write_png {Optimizer}.
Arguments demo {Optimizer}.
Arguments print_to_log {Optimizer}.
Arguments evaluate {Optimizer}.
Arguments checkpoint_of {Optimizer}.
Arguments write_pth {Optimizer}.
Arguments save {Optimizer}.
Arguments backward_phase {Optimizer}.
Arguments update_phase {Optimizer}.
Arguments demo_trigger {Optimizer}.
Arguments evaluate_trigger {Optimizer}.
Arguments save_trigger {Optimizer}.
Arguments periodic_phase {Optimizer}.
Arguments incr_step {Optimizer}.
Arguments incr_epoch {Optimizer}.
Arguments train_iteration {Optimizer}.
Arguments run_batches {Optimizer}.
Arguments run_epoch {Optimizer}.
Arguments run_epochs {Optimizer}.


(** ** The loop's trace as the specification words it *)

(** The periodic actions of step [n], in the order demo, evaluate, save,
    each under its own condition on the step number. *)
Definition periodic_events (args : Args) (fid kid : string) (n : Z)
    : list Event :=
  ((if n mod demo_every args =? 0 then [EvDemo n] else [])
   ++ (if (0 <? n) && (0 <? evaluate_every args)
          && (n mod evaluate_every args =? 0)
       then [EvEvaluate n fid kid] else [])
   ++ (if (0 <? n) && (n mod save_every args =? 0) then [EvSave n] else []))%list.

(** The four events of lines 196-200, with the decay the EMA update is
    given. *)
Definition update_events (es : EMAWarmup) : list Event :=
  [EvOptStep; EvSchedStep; EvEmaUpdate (ema_get_value es); EvEmaSchedStep].

Definition is_opt_step (e : Event) : bool :=
  match e with EvOptStep => true | _ => false end.
Definition is_ema_update (e : Event) : bool :=
  match e with EvEmaUpdate _ => true | _ => false end.
Definition is_ema_sched_step (e : Event) : bool :=
  match e with EvEmaSchedStep => true | _ => false end.
Definition is_periodic (e : Event) : bool :=
  match e with EvDemo _ | EvEvaluate _ _ _ | EvSave _ => true | _ => false end.

Definition count_events (p : Event -> bool) (t : list Event) : nat :=
  length (List.filter p t).

(** The rows the evaluations of a trace print, one per evaluation. *)
Definition row_of_event (e : Event) : string :=
  match e with
  | EvEvaluate n fid kid => metrics_row n fid kid
  | _ => EmptyString
  end.

Definition rows_of (t : list Event) : string :=
  fold_right (fun e rows => row_of_event e +:+ rows) EmptyString t.

(** The estimator a resumed run holds: the checkpoint's under [args.gns]
    when the checkpoint has one, the one built before the resume branch
    otherwise. *)
Definition resumed_gns (args : Args) (saved cur : option GradientNoiseScale)
    : option GradientNoiseScale :=
  if gns args then match saved with Some g => Some g | None => cur end
  else cur.

(** A computation that appends to the metrics log, on the main process,
    exactly the rows of the evaluations in its trace, and nothing on the
    other processes. *)
Definition appends_rows {Optimizer A : Type} (acc : Accelerator)
    (m : Exec (World Optimizer) A) : Prop :=
  forall w c,
    metrics_csv w = Some c ->
    metrics_csv (world_of (m w))
    = Some (c +:+ if is_main_process acc then rows_of (trace_of (m w))
                  else EmptyString).

(** ** Sample inputs *)

Module Sample.
Definition args : Args :=
  {| batch_size := 64; demo_every := 500; evaluate_every := 10000;
     gns := false; lr := (3 / 10000)%R; name := "model"; resume := None;
     save_every := 10000 |}.

Definition main_acc : Accelerator :=
  {| is_main_process := true; num_processes := 1 |}.

(** A plain gradient step stands in for the optimizer, the identity for
    the backbone. *)
Definition sgd_step (o : R) (params grad : Tensor) : R * Tensor :=
  (o, vsub params (vscale o grad)).
Definition sgd_set_lr (o : R) (rate : R) : R := rate.
Definition backbone (params x : Tensor) (cond : R) : Tensor := x.
Definition coeff (order : nat) (sigmas : list R) (i j : nat) : R := 1%R.

Definition inp : StepInput :=
  {| grads := [1%R]; sq_norm_small_batch := 2%R; sq_norm_large_batch := 1%R;
     demo_noise := [0%R]; fid_item := "12.5"; kid_item := "0.25" |}.

Definition st : TrainState R :=
  {| model := [1%R]; model_ema := [1%R]; opt := (3 / 10000)%R;
     sched := mkInverseLR (3 / 10000) 50000 (1 / 2) (99 / 100) 10000;
     ema_sched := mkEMAWarmup (3 / 4) (999 / 1000) 10000;
     gns_stats := None; epoch := 3; step := 10000 |}.

Definition files : World R :=
  {| metrics_csv := Some ("step,fid,kid" +:+ newline);
     pth_files := ∅; png_files := ∅ |}.

Definition gns0 : GradientNoiseScale :=
  {| gns_beta := (999 / 1000)%R; gns_eps := (1 / 100000000)%R;
     ema_sq_norm := 0%R; ema_var := 0%R |}.

(** A single-process run with [--gns]: the two batch sizes coincide. *)
Definition args_gns : Args :=
  {| batch_size := 64; demo_every := 500; evaluate_every := 10000;
     gns := true; lr := (3 / 10000)%R; name := "model"; resume := None;
     save_every := 10000 |}.

Definition st_gns : TrainState R :=
  {| model := [1%R]; model_ema := [1%R]; opt := (3 / 10000)%R;
     sched := mkInverseLR (3 / 10000) 50000 (1 / 2) (99 / 100) 10000;
     ema_sched := mkEMAWarmup (3 / 4) (999 / 1000) 10000;
     gns_stats := Some gns0; epoch := 3; step := 10000 |}.

(** The same arguments with the demo interval set to zero. *)
Definition args_no_demo : Args :=
  {| batch_size := 64; demo_every := 0; evaluate_every := 10000;
     gns := false; lr := (3 / 10000)%R; name := "model"; resume := None;
     save_every := 10000 |}.

End Sample.

(** ** The rest of [main] *)

(** [[x] * k]: [k] copies, none for a non-positive [k]. *)
Definition py_repeat {A : Type} (x : A) (k : Z) : list A :=
  repeat x (Z.to_nat k).





(** The whole of [main]: the setup, then the first passes of the loop. *)
Definition main_run {Optimizer : Type}
    (optimizer_step : Optimizer -> Tensor -> Tensor -> Optimizer * Tensor)
    (set_lr : Optimizer -> R -> Optimizer)
    (inner_model : Tensor -> Tensor -> R -> Tensor)
    (lms_coeff : nat -> list R -> nat -> nat -> R)
    (args : Args) (acc : Accelerator) (params : Tensor) (opt0 : Optimizer)
    (gns0 : GradientNoiseScale) (epochs : list (list StepInput))
    : Exec (World Optimizer) (TrainState Optimizer) :=
  let* st := main_setup args acc params opt0 gns0 in
  run_epochs optimizer_step set_lr inner_model lms_coeff args acc epochs st.

(** Both schedule counters stand at the trainer's step. *)
Definition counters_in_step {Optimizer : Type} (st : TrainState Optimizer)
    : Prop :=
  ema_last_epoch (ema_sched st) = step st
  /\ lr_last_epoch (sched st) = step st.

(** The estimator is there exactly under [args.gns]. *)
Definition gns_as_configured {Optimizer : Type} (args : Args)
    (st : TrainState Optimizer) : Prop :=
  is_Some (gns_stats st) <-> gns args = true.

(** A periodic action sits at a step its trigger allows. *)
Definition trigger_allows (args : Args) (e : Event) : Prop :=
  match e with
  | EvDemo n => demo_every args <> 0 /\ n mod demo_every args = 0
  | EvEvaluate n _ _ =>
      0 < n /\ 0 < evaluate_every args /\ n mod evaluate_every args = 0
  | EvSave n => 0 < n /\ save_every args <> 0 /\ n mod save_every args = 0
  | _ => True
  end.

(** Files that are there stay there. *)
Definition files_kept {Optimizer : Type} (w w' : World Optimizer) : Prop :=
  (is_Some (metrics_csv w) -> is_Some (metrics_csv w'))
  /\ (forall p, is_Some (pth_files w !! p) -> is_Some (pth_files w' !! p))
  /\ (forall p, is_Some (png_files w !! p) -> is_Some (png_files w' !! p)).

(** Reading a decimal numeral, sign and leading zeros allowed. *)
Definition parse_int (s : string) : option Z :=
  option_map Z.of_int (NilZero.int_of_string s).

(** ** More sample inputs *)

Module Scenario.

(** A resume path that names no file. *)
Definition args_missing : Args :=
  {| batch_size := 64; demo_every := 500; evaluate_every := 10000;
     gns := false; lr := (3 / 10000)%R; name := "model";
     resume := Some "missing.pth"; save_every := 10000 |}.

(** The state a fresh run starts from. *)
Definition fresh : TrainState R :=
  fresh_state Sample.args [1%R] (3 / 10000)%R Sample.gns0.
End Scenario.

(** * Properties *)

(** ** The execution monad *)

Section ExecFacts.
Context {W : Type}.

Lemma bind_ret_l {A B} (a : A) (f : A -> Exec W B) w :
  bind (ret a) f w = f a w.
Proof. unfold bind, ret. destruct (f a w) as [[t w'] r]. reflexivity. Qed.

Lemma bind_ok {A B} (m : Exec W A) (f : A -> Exec W B) w t w1 a t' w2 r :
  m w = (t, w1, Ok a) -> f a w1 = (t', w2, r) ->
  bind m f w = ((t ++ t')%list, w2, r).
Proof. intros Hm Hf. unfold bind. rewrite Hm, Hf. reflexivity. Qed.

Lemma bind_raise {A B} (m : Exec W A) (f : A -> Exec W B) w t w1 e :
  m w = (t, w1, Raise e) -> bind m f w = (t, w1, Raise e).
Proof. intros Hm. unfold bind. rewrite Hm. reflexivity. Qed.

Lemma bind_trace_Forall {A B} (P : Event -> Prop) (m : Exec W A)
    (f : A -> Exec W B) w :
  Forall P (trace_of (m w)) ->
  (forall a w1, Forall P (trace_of (f a w1))) ->
  Forall P (trace_of (bind m f w)).
Proof.
  intros Hm Hf. unfold bind.
  destruct (m w) as [[t w1] [a | e]]; [| exact Hm].
  specialize (Hf a w1). destruct (f a w1) as [[t' w2] r].
  apply Forall_app. split; assumption.
Qed.

Lemma py_mod_nonzero (a b : Z) (w : W) :
  b <> 0 -> py_mod a b w = ([], w, Ok (a mod b)).
Proof.
  intros Hb. unfold py_mod.
  destruct (Z.eqb_spec b 0); [contradiction | reflexivity].
Qed.

Lemma py_mod_zero (a : Z) (w : W) :
  py_mod a 0 w = ([], w, Raise ZeroDivisionError).
Proof. reflexivity. Qed.

Lemma py_mod_trace (a b : Z) (w : W) : trace_of (py_mod a b w) = [].
Proof. unfold py_mod. destruct (b =? 0); reflexivity. Qed.
End ExecFacts.

Lemma append_nil_r (s : string) : s +:+ EmptyString = s.
Proof.
  induction s as [| c s IH]; [reflexivity |].
  change (String c (s +:+ EmptyString) = String c s). f_equal. exact IH.
Qed.

Lemma append_assoc (s1 s2 s3 : string) :
  (s1 +:+ s2) +:+ s3 = s1 +:+ s2 +:+ s3.
Proof.
  induction s1 as [| c s1 IH]; [reflexivity |].
  change (String c ((s1 +:+ s2) +:+ s3) = String c (s1 +:+ s2 +:+ s3)).
  f_equal. exact IH.
Qed.

Lemma rows_of_app (t1 t2 : list Event) :
  rows_of (t1 ++ t2) = rows_of t1 +:+ rows_of t2.
Proof.
  induction t1 as [| e t1 IH]; simpl; [reflexivity |].
  rewrite IH, append_assoc. reflexivity.
Qed.

Lemma count_events_app p t1 t2 :
  count_events p (t1 ++ t2) = (count_events p t1 + count_events p t2)%nat.
Proof. unfold count_events. rewrite List.filter_app, length_app. reflexivity. Qed.

Lemma count_events_none p t :
  Forall (fun e => p e = false) t -> count_events p t = 0%nat.
Proof.
  unfold count_events. induction 1 as [| e t He _ IH]; [reflexivity |].
  cbn. rewrite He. exact IH.
Qed.

(** An element singled out by [p] between two [p]-free parts can be cut
    out of the list in one way only. *)
Lemma unique_split (p : Event -> bool) a x b :
  Forall (fun e => p e = false) a -> Forall (fun e => p e = false) b ->
  forall pre y post, p y = true ->
    (pre ++ y :: post = a ++ x :: b)%list ->
    pre = a /\ y = x /\ post = b.
Proof.
  intros Ha Hb. induction Ha as [| e a He Ha IH]; intros pre y post Hy Heq.
  - destruct pre as [| e' pre]; cbn in Heq.
    + injection Heq as -> ->. repeat split.
    + injection Heq as -> Heq. exfalso.
      assert (Hin : In y b) by (rewrite <- Heq; apply in_elt).
      rewrite <- list_elem_of_In in Hin.
      rewrite Forall_forall in Hb. specialize (Hb y Hin). congruence.
  - destruct pre as [| e' pre]; cbn in Heq.
    + injection Heq as -> _. congruence.
    + injection Heq as -> Heq.
      destruct (IH pre y post Hy Heq) as (-> & -> & ->). repeat split.
Qed.

(** ** The loop body *)

Section TrainerFacts.
Variable Optimizer : Type.
Variable optimizer_step : Optimizer -> Tensor -> Tensor -> Optimizer * Tensor.
Variable set_lr : Optimizer -> R -> Optimizer.
Variable inner_model : Tensor -> Tensor -> R -> Tensor.
Variable lms_coeff : nat -> list R -> nat -> nat -> R.

Abbreviation State := (TrainState Optimizer).
Abbreviation Files := (World Optimizer).
Abbreviation periodic := (periodic_phase inner_model lms_coeff).
Abbreviation iteration :=
  (train_iteration optimizer_step set_lr inner_model lms_coeff).

(** The closures log one event, write on the main process only, and
    return. *)
Lemma demo_exec args acc inp (st : State) (w : Files) :
  exists w',
    demo inner_model lms_coeff args acc inp st w
    = ([EvDemo (step st)], w', Ok tt)
    /\ metrics_csv w' = metrics_csv w /\ pth_files w' = pth_files w.
Proof.
  unfold demo, bind, emit, modify, ret.
  destruct (is_main_process acc); eexists; (split; [reflexivity |]);
    split; reflexivity.
Qed.

Lemma evaluate_exec acc inp (st : State) (w : Files) :
  evaluate acc inp st w
  = ([EvEvaluate (step st) (fid_item inp) (kid_item inp)],
     (if is_main_process acc
      then print_to_log
             (metrics_row (step st) (fid_item inp) (kid_item inp)) w
      else w),
     Ok tt).
Proof.
  unfold evaluate, bind, emit, modify, ret.
  destruct (is_main_process acc); reflexivity.
Qed.

Lemma save_exec args acc (st : State) (w : Files) :
  save args acc st w
  = ([EvSave (step st)],
     (if is_main_process acc
      then write_pth (pth_name args (step st)) (checkpoint_of st) w
      else w),
     Ok tt).
Proof.
  unfold save, bind, emit, modify, ret.
  destruct (is_main_process acc); reflexivity.
Qed.

Lemma demo_trigger_defined args acc inp (st : State) (w : Files) :
  demo_every args <> 0 ->
  exists w',
    demo_trigger inner_model lms_coeff args acc inp st w
    = ((if step st mod demo_every args =? 0 then [EvDemo (step st)] else []),
       w', Ok tt).
Proof.
  intros Hd. unfold demo_trigger.
  destruct (step st mod demo_every args =? 0) eqn:Hr.
  - destruct (demo_exec args acc inp st w) as (w' & He & _).
    exists w'. rewrite <- (app_nil_l [EvDemo (step st)]).
    eapply bind_ok; [apply py_mod_nonzero; exact Hd |].
    cbv beta. rewrite Hr. exact He.
  - exists w. rewrite <- (app_nil_l []).
    eapply bind_ok; [apply py_mod_nonzero; exact Hd |].
    cbv beta. rewrite Hr. reflexivity.
Qed.

Lemma evaluate_trigger_exec args acc inp (st : State) (w : Files) :
  exists w',
    evaluate_trigger args acc inp st w
    = ((if (0 <? step st) && (0 <? evaluate_every args)
           && (step st mod evaluate_every args =? 0)
        then [EvEvaluate (step st) (fid_item inp) (kid_item inp)] else []),
       w', Ok tt).
Proof.
  unfold evaluate_trigger.
  destruct (Z.ltb_spec 0 (step st)); cbn [andb]; [| eexists; reflexivity].
  destruct (Z.ltb_spec 0 (evaluate_every args)) as [Hpos | Hneg];
    cbn [andb]; [| eexists; reflexivity].
  assert (Hne : evaluate_every args <> 0) by lia.
  destruct (step st mod evaluate_every args =? 0) eqn:Hr.
  - eexists. rewrite <- (app_nil_l [EvEvaluate _ _ _]).
    eapply bind_ok; [apply py_mod_nonzero; exact Hne |].
    cbv beta. rewrite Hr. apply evaluate_exec.
  - exists w. rewrite <- (app_nil_l []).
    eapply bind_ok; [apply py_mod_nonzero; exact Hne |].
    cbv beta. rewrite Hr. reflexivity.
Qed.

Lemma save_trigger_defined args acc (st : State) (w : Files) :
  (0 < step st -> save_every args <> 0) ->
  exists w',
    save_trigger args acc st w
    = ((if (0 <? step st) && (step st mod save_every args =? 0)
        then [EvSave (step st)] else []),
       w', Ok tt).
Proof.
  intros Hsave. unfold save_trigger.
  destruct (Z.ltb_spec 0 (step st)) as [Hpos | Hneg]; cbn [andb];
    [| eexists; reflexivity].
  specialize (Hsave Hpos).
  destruct (step st mod save_every args =? 0) eqn:Hr.
  - eexists. rewrite <- (app_nil_l [EvSave _]).
    eapply bind_ok; [apply py_mod_nonzero; exact Hsave |].
    cbv beta. rewrite Hr. apply save_exec.
  - exists w. rewrite <- (app_nil_l []).
    eapply bind_ok; [apply py_mod_nonzero; exact Hsave |].
    cbv beta. rewrite Hr. reflexivity.
Qed.

(** With the moduli defined, the periodic phase logs exactly the events
    of [periodic_events] and returns. *)
Lemma periodic_phase_defined args acc inp (st : State) (w : Files) :
  demo_every args <> 0 ->
  (0 < step st -> save_every args <> 0) ->
  exists w',
    periodic args acc inp st w
    = (periodic_events args (fid_item inp) (kid_item inp) (step st),
       w', Ok tt).
Proof.
  intros Hdemo Hsave. unfold periodic_phase, periodic_events.
  destruct (demo_trigger_defined args acc inp st w Hdemo) as [w1 H1].
  destruct (evaluate_trigger_exec args acc inp st w1) as [w2 H2].
  destruct (save_trigger_defined args acc st w2 Hsave) as [w3 H3].
  exists w3. eapply bind_ok; [exact H1 |].
  eapply bind_ok; [exact H2 | exact H3].
Qed.

(** Whatever the intervals, the periodic phase logs periodic actions
    only. *)
Lemma periodic_trace_periodic args acc inp (st : State) (w : Files) :
  Forall (fun e => is_periodic e = true)
         (trace_of (periodic args acc inp st w)).
Proof.
  unfold periodic_phase.
  apply bind_trace_Forall; [| intros _ w1; apply bind_trace_Forall].
  - unfold demo_trigger. apply bind_trace_Forall.
    + rewrite py_mod_trace. constructor.
    + intros r w1. destruct (r =? 0); [| constructor].
      destruct (demo_exec args acc inp st w1) as (w' & -> & _).
      repeat constructor.
  - unfold evaluate_trigger.
    destruct ((0 <? step st) && (0 <? evaluate_every args));
      [| constructor].
    apply bind_trace_Forall.
    + rewrite py_mod_trace. constructor.
    + intros r w2. destruct (r =? 0); [| constructor].
      rewrite evaluate_exec. repeat constructor.
  - intros _ w2. unfold save_trigger.
    destruct (0 <? step st); [| constructor].
    apply bind_trace_Forall.
    + rewrite py_mod_trace. constructor.
    + intros r w3. destruct (r =? 0); [| constructor].
      rewrite save_exec. repeat constructor.
Qed.

(** The gradient phase returns unless [args.gns] meets a missing
    estimator; it writes no file and touches nothing but the estimator. *)
Lemma backward_phase_defined args acc inp (st : State) (w : Files) :
  (gns args = true -> is_Some (gns_stats st)) ->
  exists st1,
    backward_phase args acc inp st w
    = (([EvZeroGrad; EvBackward]
        ++ if gns args then [EvGnsUpdate] else [])%list, w, Ok st1)
    /\ model st1 = model st /\ model_ema st1 = model_ema st
    /\ opt st1 = opt st /\ sched st1 = sched st
    /\ ema_sched st1 = ema_sched st
    /\ epoch st1 = epoch st /\ step st1 = step st.
Proof.
  intros Hg. unfold backward_phase. destruct (gns args).
  - destruct Hg as [g Hg]; [reflexivity |]. rewrite Hg.
    eexists. split; [reflexivity |]. cbn. repeat split.
  - exists st. repeat split.
Qed.

Lemma backward_phase_cases args acc inp (st : State) (w : Files) :
  (exists t st1,
     backward_phase args acc inp st w = (t, w, Ok st1)
     /\ ema_sched st1 = ema_sched st /\ step st1 = step st
     /\ epoch st1 = epoch st)
  \/ backward_phase args acc inp st w
     = ([EvZeroGrad; EvBackward], w, Raise AttributeError).
Proof.
  unfold backward_phase.
  destruct (gns args); [destruct (gns_stats st) |].
  - left. do 2 eexists. split; [reflexivity |]. repeat split.
  - right. reflexivity.
  - left. do 2 eexists. split; [reflexivity |]. repeat split.
Qed.

Lemma backward_phase_trace args acc inp (st : State) (w : Files) :
  Forall (fun e => is_opt_step e = false /\ is_ema_update e = false
                   /\ is_ema_sched_step e = false)
         (trace_of (backward_phase args acc inp st w)).
Proof.
  unfold backward_phase.
  destruct (gns args); [destruct (gns_stats st) |]; cbn;
    repeat constructor.
Qed.

Lemma update_phase_exec inp (st : State) (w : Files) :
  exists st',
    update_phase optimizer_step set_lr inp st w
    = (update_events (ema_sched st), w, Ok st')
    /\ model st' = snd (optimizer_step (opt st) (model st) (grads inp))
    /\ model_ema st'
       = ema_update (model st') (model_ema st) (ema_get_value (ema_sched st))
    /\ ema_sched st' = ema_sched_step (ema_sched st)
    /\ sched st' = sched_advance (sched st)
    /\ gns_stats st' = gns_stats st
    /\ epoch st' = epoch st /\ step st' = step st.
Proof.
  unfold update_phase, update_events.
  destruct (optimizer_step (opt st) (model st) (grads inp)) as [o m].
  eexists. split; [reflexivity |]. cbn. repeat split.
Qed.

(** The trace of one pass: the gradient phase alone when it raised,
    otherwise gradient phase, the four update events, periodic actions. *)
Lemma iteration_trace args acc inp (st : State) (w : Files) :
  let t := trace_of (iteration args acc inp st w) in
  t = trace_of (backward_phase args acc inp st w)
  \/ (exists post,
        t = (trace_of (backward_phase args acc inp st w)
             ++ update_events (ema_sched st) ++ post)%list
        /\ Forall (fun e => is_periodic e = true) post).
Proof.
  cbv zeta.
  destruct (backward_phase_cases args acc inp st w)
    as [(t0 & st1 & Hb & Hes & _) | Hb].
  - right. destruct (update_phase_exec inp st1 w) as (st2 & Hu & _).
    rewrite Hes in Hu.
    pose proof (periodic_trace_periodic args acc inp st2 w) as Hp.
    destruct (periodic args acc inp st2 w) as [[tp wp] rp] eqn:Hper.
    set (k := fun _ : unit => ret (W := Files) (incr_step st2)).
    destruct (bind (periodic args acc inp st2) k w) as [[t3 w3] r3] eqn:Hk.
    exists t3. split.
    + unfold train_iteration.
      erewrite bind_ok; [| exact Hb |].
      2:{ eapply bind_ok; [exact Hu | exact Hk]. }
      rewrite Hb. reflexivity.
    + change t3 with (trace_of (t3, w3, r3)). rewrite <- Hk.
      apply bind_trace_Forall; [rewrite Hper; exact Hp |].
      intros a w'. constructor.
  - left. unfold train_iteration.
    erewrite bind_raise; [| exact Hb]. rewrite Hb. reflexivity.
Qed.

(** C2. On a training step whose moduli are defined, the pass logs the
    gradient phase, then the optimizer step with the schedule and EMA
    updates, then the periodic actions: demo when [step % demo_every ==
    0], evaluate when [step > 0 and evaluate_every > 0 and step %
    evaluate_every == 0], save when [step > 0 and step % save_every ==
    0], each under its own condition and in the order demo, evaluate,
    save; the pass then returns with [step + 1]. *)
Theorem periodic_actions_fire_in_order args acc inp (st : State) (w : Files) :
  demo_every args <> 0 ->
  (0 < step st -> save_every args <> 0) ->
  (gns args = true -> is_Some (gns_stats st)) ->
  exists w' st',
    iteration args acc inp st w
    = ((([EvZeroGrad; EvBackward] ++ if gns args then [EvGnsUpdate] else [])
        ++ update_events (ema_sched st)
        ++ periodic_events args (fid_item inp) (kid_item inp) (step st))%list,
       w', Ok st')
    /\ step st' = step st + 1 /\ epoch st' = epoch st.
Proof.
  intros Hdemo Hsave Hgns.
  destruct (backward_phase_defined args acc inp st w Hgns)
    as (st1 & Hb & _ & _ & _ & _ & Hes & Hep & Hst).
  destruct (update_phase_exec inp st1 w)
    as (st2 & Hu & _ & _ & _ & _ & _ & Hep2 & Hst2).
  assert (Hsave2 : 0 < step st2 -> save_every args <> 0)
    by (rewrite Hst2, Hst; exact Hsave).
  destruct (periodic_phase_defined args acc inp st2 w Hdemo Hsave2)
    as (w' & Hp).
  exists w', (incr_step st2). split.
  - unfold train_iteration. eapply bind_ok; [exact Hb |].
    rewrite <- Hes. eapply bind_ok; [exact Hu |].
    rewrite <- Hst, <- Hst2.
    rewrite <- (app_nil_r (periodic_events _ _ _ _)).
    eapply bind_ok; [exact Hp | reflexivity].
  - cbn. rewrite Hst2, Hst, Hep2, Hep. split; reflexivity.
Qed.

(** C3. The update phase runs the optimizer step, then the EMA update
    with the decay read from the warmup schedule at its counter of
    before, then advances that counter by one; in the trace of a whole
    pass there are as many EMA updates and EMA-schedule steps as
    optimizer steps, at most one, and any EMA update in it carries that
    decay, follows the optimizer step and precedes the schedule step. *)
Theorem ema_update_once_after_optimizer args acc inp (st : State) (w : Files) :
  (exists st',
     update_phase optimizer_step set_lr inp st w
     = ([EvOptStep; EvSchedStep; EvEmaUpdate (ema_get_value (ema_sched st));
         EvEmaSchedStep], w, Ok st')
     /\ model st' = snd (optimizer_step (opt st) (model st) (grads inp))
     /\ model_ema st'
        = ema_update (model st') (model_ema st)
            (ema_get_value (ema_sched st))
     /\ ema_last_epoch (ema_sched st') = ema_last_epoch (ema_sched st) + 1)
  /\ let t := trace_of (iteration args acc inp st w) in
     count_events is_ema_update t = count_events is_opt_step t
     /\ count_events is_ema_sched_step t = count_events is_opt_step t
     /\ (count_events is_opt_step t <= 1)%nat
     /\ (forall pre d post, t = (pre ++ EvEmaUpdate d :: post)%list ->
           d = ema_get_value (ema_sched st)
           /\ In EvOptStep pre /\ ~ In EvEmaSchedStep pre
           /\ In EvEmaSchedStep post).
Proof.
  split.
  { destruct (update_phase_exec inp st w)
      as (st' & Hu & Hm & Hema & Hes & _).
    exists st'. repeat split; try assumption. rewrite Hes. reflexivity. }
  intros t.
  pose proof (backward_phase_trace args acc inp st w) as Hback.
  assert (Hpre : forall p,
    (forall e, is_opt_step e = false /\ is_ema_update e = false
               /\ is_ema_sched_step e = false -> p e = false) ->
    Forall (fun e => p e = false)
           (trace_of (backward_phase args acc inp st w))).
  { intros p Hp. eapply Forall_impl; [exact Hback | exact Hp]. }
  assert (Hper : forall p post,
    (forall e, is_periodic e = true -> p e = false) ->
    Forall (fun e => is_periodic e = true) post ->
    Forall (fun e => p e = false) post).
  { intros p post Hp Hpost. eapply Forall_impl; [exact Hpost | exact Hp]. }
  destruct (iteration_trace args acc inp st w)
    as [Ht | (post & Ht & Hpost)]; fold t in Ht; rewrite Ht.
  - rewrite (count_events_none is_ema_update),
      (count_events_none is_opt_step),
      (count_events_none is_ema_sched_step) by (apply Hpre; tauto).
    split; [reflexivity |]. split; [reflexivity |]. split; [lia |].
    intros pre d post Heq. exfalso.
    assert (Hin : In (EvEmaUpdate d)
                     (trace_of (backward_phase args acc inp st w)))
      by (rewrite Heq; apply in_elt).
    rewrite <- list_elem_of_In in Hin.
    rewrite Forall_forall in Hback.
    destruct (Hback _ Hin) as (_ & Hd & _). discriminate.
  - rewrite !count_events_app.
    rewrite (count_events_none is_ema_update (trace_of _)),
      (count_events_none is_opt_step (trace_of _)),
      (count_events_none is_ema_sched_step (trace_of _))
      by (apply Hpre; tauto).
    rewrite (count_events_none is_ema_update post),
      (count_events_none is_opt_step post),
      (count_events_none is_ema_sched_step post)
      by (apply (Hper _ _); [intros []; cbn; congruence | exact Hpost]).
    split; [reflexivity |]. split; [reflexivity |].
    split; [unfold count_events, update_events; cbn; lia |].
    intros pre d post' Heq.
    change (update_events (ema_sched st) ++ post)%list
      with ([EvOptStep; EvSchedStep]
            ++ EvEmaUpdate (ema_get_value (ema_sched st))
            :: EvEmaSchedStep :: post)%list in Heq.
    rewrite app_assoc in Heq.
    assert (Ha : Forall (fun e => is_ema_update e = false)
                   (trace_of (backward_phase args acc inp st w)
                    ++ [EvOptStep; EvSchedStep])).
    { apply Forall_app. split; [apply Hpre; tauto | repeat constructor]. }
    assert (Hb : Forall (fun e => is_ema_update e = false)
                   (EvEmaSchedStep :: post)).
    { constructor; [reflexivity |].
      apply (Hper _ _); [intros []; cbn; congruence | exact Hpost]. }
    destruct (unique_split is_ema_update _ _ _ Ha Hb pre (EvEmaUpdate d)
                post' eq_refl (eq_sym Heq)) as (-> & [= ->] & ->).
    repeat split.
    * apply in_or_app. right. left. reflexivity.
    * intros Hin. apply in_app_or in Hin. destruct Hin as [Hin | Hin].
      -- rewrite <- list_elem_of_In in Hin.
         rewrite Forall_forall in Hback.
         destruct (Hback _ Hin) as (_ & _ & Hd). discriminate.
      -- cbn in Hin. intuition discriminate.
    * left. reflexivity.
Qed.

(** C10. The modulo of the demo and save triggers is unguarded: with
    [demo_every == 0] the periodic phase raises a division-by-zero error
    before any action, so the first pass of a fresh run (step 0) raises;
    with [save_every == 0] it raises at every step greater than 0; with
    [evaluate_every == 0] and the other two intervals non-zero it returns
    and no evaluation runs. *)
Theorem zero_interval_raises args acc inp (st : State) (w : Files) :
  (demo_every args = 0 ->
     periodic args acc inp st w = ([], w, Raise ZeroDivisionError)
     /\ forall params opt0 gns0,
          step (fresh_state args params opt0 gns0) = 0
          /\ outcome (iteration args acc inp
                        (fresh_state args params opt0 gns0) w)
             = Raise ZeroDivisionError)
  /\ (save_every args = 0 -> 0 < step st ->
       outcome (periodic args acc inp st w) = Raise ZeroDivisionError)
  /\ (evaluate_every args = 0 ->
       demo_every args <> 0 -> save_every args <> 0 ->
       outcome (periodic args acc inp st w) = Ok tt
       /\ Forall (fun e => match e with EvEvaluate _ _ _ => False
                           | _ => True end)
                 (trace_of (periodic args acc inp st w))).
Proof.
  split; [| split].
  - intros Hd.
    assert (Hraise : forall (s : State) (w0 : Files),
              periodic args acc inp s w0 = ([], w0, Raise ZeroDivisionError)).
    { intros s w0. unfold periodic_phase, demo_trigger. rewrite Hd.
      reflexivity. }
    split; [apply Hraise |]. intros params opt0 gns0.
    split; [reflexivity |].
    set (st0 := fresh_state args params opt0 gns0).
    assert (Hg : gns args = true -> is_Some (gns_stats st0)).
    { intros Hg. unfold st0, fresh_state. cbn. rewrite Hg. eauto. }
    destruct (backward_phase_defined args acc inp st0 w Hg)
      as (st1 & Hb & _).
    destruct (update_phase_exec inp st1 w) as (st2 & Hu & _).
    unfold train_iteration.
    erewrite bind_ok; [reflexivity | exact Hb |].
    eapply bind_ok; [exact Hu |].
    eapply bind_raise. apply Hraise.
  - intros Hs Hpos. unfold periodic_phase.
    destruct (Z.eqb_spec (demo_every args) 0) as [Hd | Hd].
    + unfold demo_trigger. rewrite Hd. reflexivity.
    + destruct (demo_trigger_defined args acc inp st w Hd) as [w1 H1].
      destruct (evaluate_trigger_exec args acc inp st w1) as [w2 H2].
      erewrite bind_ok; [reflexivity | exact H1 |].
      eapply bind_ok; [exact H2 |].
      unfold save_trigger.
      destruct (Z.ltb_spec 0 (step st)); [| lia].
      rewrite Hs. reflexivity.
  - intros He Hd Hs.
    destruct (periodic_phase_defined args acc inp st w Hd (fun _ => Hs))
      as (w' & Hp).
    rewrite Hp. split; [reflexivity |].
    unfold trace_of, periodic_events. cbn [fst]. rewrite He.
    rewrite Z.ltb_irrefl, andb_false_r. cbn [andb].
    apply Forall_app. split; [| apply Forall_app; split].
    + destruct (_ =? 0); repeat constructor.
    + constructor.
    + destruct (_ && _); repeat constructor.
Qed.

(** *** Counters *)

Lemma iteration_counters args acc inp (st st' : State) (w w' : Files) t :
  iteration args acc inp st w = (t, w', Ok st') ->
  step st' = step st + 1 /\ epoch st' = epoch st.
Proof.
  unfold train_iteration. intros Hrun.
  destruct (backward_phase_cases args acc inp st w)
    as [(t0 & st1 & Hb & _ & Hst & Hep) | Hb].
  - destruct (update_phase_exec inp st1 w)
      as (st2 & Hu & _ & _ & _ & _ & _ & Hep2 & Hst2).
    destruct (periodic args acc inp st2 w) as [[tp wp] [[] | e]] eqn:Hp.
    + erewrite bind_ok in Hrun; [| exact Hb |].
      2:{ eapply bind_ok; [exact Hu |].
          eapply bind_ok; [exact Hp | reflexivity]. }
      injection Hrun as _ _ <-. cbn.
      rewrite Hst2, Hst, Hep2, Hep. split; reflexivity.
    + erewrite bind_ok in Hrun; [| exact Hb |].
      2:{ eapply bind_ok; [exact Hu |]. eapply bind_raise. exact Hp. }
      discriminate.
  - erewrite bind_raise in Hrun; [| exact Hb]. discriminate.
Qed.

Lemma bind_inv_ok {W A B} (m : Exec W A) (f : A -> Exec W B) w t w' b :
  bind m f w = (t, w', Ok b) ->
  exists t1 w1 a t2,
    m w = (t1, w1, Ok a) /\ f a w1 = (t2, w', Ok b)
    /\ t = (t1 ++ t2)%list.
Proof.
  unfold bind. destruct (m w) as [[t1 w1] [a | e]]; [| discriminate].
  destruct (f a w1) as [[t2 w2] r] eqn:Hf. intros [= <- <- ->].
  exists t1, w1, a, t2. repeat split. exact Hf.
Qed.

Lemma run_batches_counters args acc batches :
  forall (st st' : State) (w w' : Files) t,
    run_batches optimizer_step set_lr inner_model lms_coeff args acc
      batches st w = (t, w', Ok st') ->
    step st' = step st + Z.of_nat (length batches)
    /\ epoch st' = epoch st.
Proof.
  induction batches as [| inp rest IH]; intros st st' w w' t Hrun.
  - injection Hrun as _ _ <-. cbn. split; [lia | reflexivity].
  - cbn [run_batches] in Hrun.
    apply bind_inv_ok in Hrun as (t1 & w1 & st1 & t2 & H1 & H2 & _).
    apply iteration_counters in H1 as [Hs He].
    apply IH in H2 as [Hs' He'].
    rewrite Hs', He', Hs, He. cbn [length]. split; [lia | reflexivity].
Qed.

Lemma run_epoch_counters args acc batches (st st' : State)
    (w w' : Files) t :
  run_epoch optimizer_step set_lr inner_model lms_coeff args acc
    batches st w = (t, w', Ok st') ->
  step st' = step st + Z.of_nat (length batches)
  /\ epoch st' = epoch st + 1.
Proof.
  unfold run_epoch. intros Hrun.
  apply bind_inv_ok in Hrun as (t1 & w1 & st1 & t2 & H1 & H2 & _).
  apply run_batches_counters in H1 as [Hs He].
  injection H2 as _ _ <-. cbn. rewrite Hs, He. split; reflexivity.
Qed.

(** *** Resume and checkpoints *)

Lemma resume_from_checkpoint args (saved st : State) (w : Files) :
  (gns args = true -> is_Some (gns_stats st)) ->
  resume_from args (checkpoint_of saved) st w
  = ([], w,
     Ok {| model := model saved; model_ema := model_ema saved;
           opt := opt saved; sched := sched saved;
           ema_sched := ema_sched saved;
           gns_stats := resumed_gns args (gns_stats saved) (gns_stats st);
           epoch := epoch saved + 1; step := step saved + 1 |}).
Proof.
  intros Hg. unfold resume_from, resume_gns, resumed_gns, checkpoint_of.
  destruct (gns args).
  - destruct Hg as [g0 Hg]; [reflexivity |]. rewrite Hg.
    destruct (gns_stats saved); reflexivity.
  - reflexivity.
Qed.

Lemma fresh_state_gns args params (opt0 : Optimizer) gns0 :
  gns args = true -> is_Some (gns_stats (fresh_state args params opt0 gns0)).
Proof. intros Hg. unfold fresh_state. cbn. rewrite Hg. eauto. Qed.

(** C1 (amended). Resuming from a checkpoint that [save] wrote, the
    run continues from the saved step plus one and the saved epoch plus
    one; model, EMA shadow, optimizer, LR schedule and EMA schedule are
    the checkpoint's, and the GNS estimator is the checkpoint's under
    [args.gns] when the checkpoint holds one. In the loop a pass
    that returns leaves the epoch as it was and a whole pass over the
    data adds one to it. *)
Theorem resume_continues_after_checkpoint args acc params opt0 gns0
    (saved : State) (w : Files) :
  (exists st',
     resume_from args (checkpoint_of saved)
       (fresh_state args params opt0 gns0) w = ([], w, Ok st')
     /\ step st' = step saved + 1
     /\ epoch st' = epoch saved + 1
     /\ model st' = model saved /\ model_ema st' = model_ema saved
     /\ opt st' = opt saved /\ sched st' = sched saved
     /\ ema_sched st' = ema_sched saved
     /\ gns_stats st'
        = if gns args
          then Some (default gns0 (gns_stats saved)) else None)
  /\ (forall inp st st' w' t,
        iteration args acc inp st w = (t, w', Ok st') ->
        epoch st' = epoch st /\ step st' = step st + 1)
  /\ (forall batches st st' w' t,
        run_epoch optimizer_step set_lr inner_model lms_coeff args acc
          batches st w = (t, w', Ok st') ->
        epoch st' = epoch st + 1
        /\ step st' = step st + Z.of_nat (length batches)).
Proof.
  split; [| split].
  - eexists. split.
    + apply resume_from_checkpoint, fresh_state_gns.
    + cbn. unfold resumed_gns. repeat split.
      destruct (gns args); [destruct (gns_stats saved) |]; reflexivity.
  - intros inp st st' w' t Hrun.
    apply iteration_counters in Hrun as [Hs He]. split; assumption.
  - intros batches st st' w' t Hrun.
    apply run_epoch_counters in Hrun as [Hs He]. split; assumption.
Qed.

(** C4. The dictionary [save] builds has exactly the fields [model],
    [model_ema], [opt], [sched], [ema_sched], [epoch], [step] and
    [gns_stats], each holding the live value ([gns_stats] is [None]
    without an estimator); on the main process [save] writes it under
    the step's file name, loading that file gives it back, and resuming
    from it restores the optimizer and both schedules as they were, so
    every later learning rate, LR multiplier and EMA decay is the same
    as without the interruption, and the run continues at the saved step
    plus one. *)
Theorem checkpoint_round_trip args acc params opt0 gns0
    (st : State) (w : Files) :
  dom (checkpoint_of st)
  = list_to_set ["model"; "model_ema"; "opt"; "sched"; "ema_sched";
                 "epoch"; "step"; "gns_stats"]
  /\ checkpoint_of st !! "model" = Some (VParams (model st))
  /\ checkpoint_of st !! "model_ema" = Some (VParams (model_ema st))
  /\ checkpoint_of st !! "opt" = Some (VOpt (opt st))
  /\ checkpoint_of st !! "sched" = Some (VSched (sched st))
  /\ checkpoint_of st !! "ema_sched" = Some (VEmaSched (ema_sched st))
  /\ checkpoint_of st !! "epoch" = Some (VInt (epoch st))
  /\ checkpoint_of st !! "step" = Some (VInt (step st))
  /\ checkpoint_of st !! "gns_stats"
     = Some (match gns_stats st with Some g => VGns g | None => VNone end)
  /\ (is_main_process acc = true ->
      let w' := world_of (save args acc st w) in
      torch_load (pth_name args (step st)) w'
      = ([], w', Ok (checkpoint_of st))
      /\ exists st',
           resume_from args (checkpoint_of st)
             (fresh_state args params opt0 gns0) w' = ([], w', Ok st')
           /\ opt st' = opt st /\ sched st' = sched st
           /\ ema_sched st' = ema_sched st
           /\ step st' = step st + 1
           /\ forall k : nat,
                get_last_lr (Nat.iter k sched_advance (sched st'))
                = get_last_lr (Nat.iter k sched_advance (sched st))
                /\ multiplier (sched st')
                     (lr_last_epoch (sched st') + Z.of_nat k)
                   = multiplier (sched st)
                       (lr_last_epoch (sched st) + Z.of_nat k)
                /\ ema_get_value
                     (Nat.iter k ema_sched_step (ema_sched st'))
                   = ema_get_value
                       (Nat.iter k ema_sched_step (ema_sched st))).
Proof.
  split.
  { unfold checkpoint_of. rewrite dom_list_to_map_L. reflexivity. }
  do 8 (split; [reflexivity |]).
  intros Hmain w'. split.
  - unfold w'. rewrite save_exec, Hmain. unfold torch_load, world_of.
    cbn [fst snd write_pth pth_files]. rewrite lookup_insert_eq.
    reflexivity.
  - eexists. split.
    + apply resume_from_checkpoint, fresh_state_gns.
    + cbn. repeat split.
Qed.

(** *** The metrics log *)

Lemma appends_ret {A} acc (a : A) : appends_rows (Optimizer := Optimizer) acc (ret a).
Proof.
  intros w c Hc. cbn. rewrite Hc.
  destruct (is_main_process acc); cbn; rewrite append_nil_r; reflexivity.
Qed.

Lemma appends_raise {A} acc e :
  appends_rows (Optimizer := Optimizer) (A := A) acc (raise e).
Proof.
  intros w c Hc. cbn. rewrite Hc.
  destruct (is_main_process acc); cbn; rewrite append_nil_r; reflexivity.
Qed.

Lemma appends_emit acc e :
  row_of_event e = EmptyString ->
  appends_rows (Optimizer := Optimizer) acc (emit e).
Proof.
  intros He w c Hc. cbn. rewrite Hc, He.
  destruct (is_main_process acc); cbn; rewrite append_nil_r; reflexivity.
Qed.

Lemma appends_modify acc (f : Files -> Files) :
  (forall w, metrics_csv (f w) = metrics_csv w) ->
  appends_rows acc (modify f).
Proof.
  intros Hf w c Hc. cbn. rewrite Hf, Hc.
  destruct (is_main_process acc); cbn; rewrite append_nil_r; reflexivity.
Qed.

Lemma appends_bind {A B} acc (m : Exec Files A) (f : A -> Exec Files B) :
  appends_rows acc m -> (forall a, appends_rows acc (f a)) ->
  appends_rows acc (bind m f).
Proof.
  intros Hm Hf w c Hc. specialize (Hm w c Hc). unfold bind.
  destruct (m w) as [[t w1] [a | e]]; [| exact Hm].
  cbn [world_of trace_of fst snd] in Hm.
  specialize (Hf a w1 _ Hm).
  destruct (f a w1) as [[t' w2] r].
  cbn [world_of trace_of fst snd] in *. rewrite Hf.
  destruct (is_main_process acc).
  - rewrite rows_of_app, append_assoc. reflexivity.
  - rewrite !append_nil_r. reflexivity.
Qed.

Lemma appends_py_mod acc a b :
  appends_rows (Optimizer := Optimizer) acc (py_mod a b).
Proof.
  unfold py_mod. destruct (b =? 0); [apply appends_raise | apply appends_ret].
Qed.

Lemma appends_evaluate acc inp (st : State) :
  appends_rows acc (evaluate acc inp st).
Proof.
  intros w c Hc. rewrite evaluate_exec. cbn [world_of trace_of fst snd].
  destruct (is_main_process acc).
  - cbn. rewrite Hc, append_nil_r. reflexivity.
  - rewrite Hc, append_nil_r. reflexivity.
Qed.

Lemma appends_periodic args acc inp (st : State) :
  appends_rows acc (periodic args acc inp st).
Proof.
  unfold periodic_phase.
  apply appends_bind; [| intros _; apply appends_bind; [| intros _]].
  - unfold demo_trigger. apply appends_bind; [apply appends_py_mod |].
    intros r. destruct (r =? 0); [| apply appends_ret].
    unfold demo. apply appends_bind; [apply appends_emit; reflexivity |].
    intros _. destruct (is_main_process acc);
      [apply appends_modify; reflexivity | apply appends_ret].
  - unfold evaluate_trigger. destruct (_ && _); [| apply appends_ret].
    apply appends_bind; [apply appends_py_mod |].
    intros r. destruct (r =? 0);
      [apply appends_evaluate | apply appends_ret].
  - unfold save_trigger. destruct (0 <? step st); [| apply appends_ret].
    apply appends_bind; [apply appends_py_mod |].
    intros r. destruct (r =? 0); [| apply appends_ret].
    unfold save. apply appends_bind; [apply appends_emit; reflexivity |].
    intros _. destruct (is_main_process acc);
      [apply appends_modify; reflexivity | apply appends_ret].
Qed.

Lemma appends_iteration args acc inp (st : State) :
  appends_rows acc (iteration args acc inp st).
Proof.
  unfold train_iteration.
  apply appends_bind; [| intros st1; apply appends_bind].
  - unfold backward_phase.
    apply appends_bind; [apply appends_emit; reflexivity | intros _].
    apply appends_bind; [apply appends_emit; reflexivity | intros _].
    destruct (gns args); [| apply appends_ret].
    destruct (gns_stats st); [| apply appends_raise].
    apply appends_bind; [apply appends_emit; reflexivity | intros _].
    apply appends_ret.
  - unfold update_phase.
    destruct (optimizer_step (opt st1) (model st1) (grads inp)).
    repeat (apply appends_bind;
            [apply appends_emit; reflexivity | intros _]).
    apply appends_ret.
  - intros st2. apply appends_bind; [apply appends_periodic |].
    intros _. apply appends_ret.
Qed.

Lemma appends_run_batches args acc batches :
  forall st : State,
    appends_rows acc
      (run_batches optimizer_step set_lr inner_model lms_coeff args acc
         batches st).
Proof.
  induction batches as [| inp rest IH]; intros st; cbn [run_batches].
  - apply appends_ret.
  - apply appends_bind; [apply appends_iteration | exact IH].
Qed.

Lemma appends_run_epochs args acc epochs :
  forall st : State,
    appends_rows acc
      (run_epochs optimizer_step set_lr inner_model lms_coeff args acc
         epochs st).
Proof.
  induction epochs as [| batches rest IH]; intros st; cbn [run_epochs].
  - apply appends_ret.
  - apply appends_bind; [| exact IH]. unfold run_epoch.
    apply appends_bind; [apply appends_run_batches |].
    intros st'. apply appends_ret.
Qed.

(** C9. The metrics log is opened on the main process only: an existing
    file is left as it is and a missing one is created with the line
    [step,fid,kid]; an evaluation logs one event and, on the main
    process, appends its one row [step,fid,kid] to the log; and over any
    number of passes of the loop the log is its old contents followed,
    on the main process, by exactly the rows of the evaluations that
    ran, in their order, and is unchanged on the other processes. *)
Theorem metrics_log_append_only args acc :
  (forall (w : Files) c,
     metrics_csv w = Some c ->
     open_metrics_log acc w = ([], w, Ok tt))
  /\ (forall w : Files,
        metrics_csv w = None ->
        metrics_csv (world_of (open_metrics_log acc w))
        = if is_main_process acc
          then Some ("step,fid,kid" +:+ newline) else None)
  /\ (forall inp (st : State) (w : Files) c,
        metrics_csv w = Some c ->
        trace_of (evaluate acc inp st w)
        = [EvEvaluate (step st) (fid_item inp) (kid_item inp)]
        /\ metrics_csv (world_of (evaluate acc inp st w))
           = Some (if is_main_process acc
                   then c +:+ py_str (step st) +:+ "," +:+ fid_item inp
                          +:+ "," +:+ kid_item inp +:+ newline
                   else c))
  /\ (forall epochs (st : State) (w : Files) c,
        metrics_csv w = Some c ->
        let run :=
          run_epochs optimizer_step set_lr inner_model lms_coeff args acc
            epochs st w in
        metrics_csv (world_of run)
        = Some (if is_main_process acc
                then c +:+ rows_of (trace_of run) else c)).
Proof.
  split; [| split; [| split]].
  - intros w c Hc. unfold open_metrics_log, modify, ret, open_metrics_file.
    destruct (is_main_process acc); [rewrite Hc |]; reflexivity.
  - intros w Hc. unfold open_metrics_log, modify, ret, open_metrics_file.
    destruct (is_main_process acc); cbn [world_of fst snd]; rewrite Hc;
      reflexivity.
  - intros inp st w c Hc. rewrite evaluate_exec. split; [reflexivity |].
    unfold world_of, print_to_log.
    destruct (is_main_process acc); cbn [fst snd metrics_csv];
      rewrite Hc; reflexivity.
  - intros epochs st w c Hc run.
    pose proof (appends_run_epochs args acc epochs st w c Hc) as Hrun.
    fold run in Hrun. rewrite Hrun.
    destruct (is_main_process acc); [reflexivity |].
    rewrite append_nil_r. reflexivity.
Qed.

End TrainerFacts.

(** ** The theorems at the sample inputs *)

Lemma periodic_actions_fire_in_order_witness :
  exists w' st',
    train_iteration Sample.sgd_step Sample.sgd_set_lr Sample.backbone
      Sample.coeff Sample.args Sample.main_acc Sample.inp Sample.st
      Sample.files
    = ([EvZeroGrad; EvBackward; EvOptStep; EvSchedStep;
        EvEmaUpdate (ema_get_value (ema_sched Sample.st)); EvEmaSchedStep;
        EvDemo 10000; EvEvaluate 10000 "12.5" "0.25"; EvSave 10000],
       w', Ok st')
    /\ step st' = 10001 /\ epoch st' = 3.
Proof.
  apply (periodic_actions_fire_in_order R Sample.sgd_step Sample.sgd_set_lr
           Sample.backbone Sample.coeff Sample.args Sample.main_acc
           Sample.inp Sample.st Sample.files).
  - discriminate.
  - intros _. discriminate.
  - discriminate.
Defined.

Lemma ema_update_once_after_optimizer_witness :
  ema_get_value (ema_sched Sample.st) = ema_get_value (ema_sched Sample.st)
  /\ In EvOptStep [EvZeroGrad; EvBackward; EvOptStep; EvSchedStep]
  /\ ~ In EvEmaSchedStep [EvZeroGrad; EvBackward; EvOptStep; EvSchedStep]
  /\ In EvEmaSchedStep
       [EvEmaSchedStep; EvDemo 10000; EvEvaluate 10000 "12.5" "0.25";
        EvSave 10000].
Proof.
  apply (proj2 (proj2 (proj2 (proj2
           (ema_update_once_after_optimizer R Sample.sgd_step
              Sample.sgd_set_lr Sample.backbone Sample.coeff Sample.args
              Sample.main_acc Sample.inp Sample.st Sample.files))))).
  reflexivity.
Defined.

Lemma zero_interval_raises_witness :
  periodic_phase Sample.backbone Sample.coeff Sample.args_no_demo
    Sample.main_acc Sample.inp Sample.st Sample.files
  = ([], Sample.files, Raise ZeroDivisionError)
  /\ forall params opt0 gns0,
       step (fresh_state Sample.args_no_demo params opt0 gns0) = 0
       /\ outcome
            (train_iteration Sample.sgd_step Sample.sgd_set_lr
               Sample.backbone Sample.coeff Sample.args_no_demo
               Sample.main_acc Sample.inp
               (fresh_state Sample.args_no_demo params opt0 gns0)
               Sample.files)
          = Raise ZeroDivisionError.
Proof.
  apply (proj1 (zero_interval_raises R Sample.sgd_step Sample.sgd_set_lr
                  Sample.backbone Sample.coeff Sample.args_no_demo
                  Sample.main_acc Sample.inp Sample.st Sample.files)).
  reflexivity.
Defined.

Lemma resume_continues_after_checkpoint_witness :
  exists t w' st',
    train_iteration Sample.sgd_step Sample.sgd_set_lr Sample.backbone
      Sample.coeff Sample.args Sample.main_acc Sample.inp Sample.st
      Sample.files = (t, w', Ok st')
    /\ epoch st' = epoch Sample.st /\ step st' = step Sample.st + 1.
Proof.
  do 3 eexists. split; [reflexivity |].
  eapply (proj1 (proj2
            (resume_continues_after_checkpoint R Sample.sgd_step
               Sample.sgd_set_lr Sample.backbone Sample.coeff Sample.args
               Sample.main_acc [1%R] 1%R Sample.gns0 Sample.st
               Sample.files))).
  reflexivity.
Defined.

(** C1, as claimed, fails: the resumed epoch is the saved epoch plus one,
    not the saved epoch. *)
Lemma resume_epoch_counterexample :
  exists st',
    outcome (resume_from Sample.args (checkpoint_of Sample.st)
               (fresh_state Sample.args [1%R] 1%R Sample.gns0) Sample.files)
    = Ok st'
    /\ checkpoint_of Sample.st !! "epoch" = Some (VInt 3)
    /\ step st' = step Sample.st + 1
    /\ epoch st' = 4
    /\ epoch st' <> epoch Sample.st.
Proof.
  eexists. split; [reflexivity |].
  split; [reflexivity |]. split; [reflexivity |]. split; [reflexivity |].
  discriminate.
Qed.

Lemma checkpoint_round_trip_witness :
  let w' := world_of (save Sample.args Sample.main_acc Sample.st Sample.files) in
  torch_load (pth_name Sample.args 10000) w'
  = ([], w', Ok (checkpoint_of Sample.st))
  /\ exists st',
       resume_from Sample.args (checkpoint_of Sample.st)
         (fresh_state Sample.args [1%R] 1%R Sample.gns0) w' = ([], w', Ok st')
       /\ opt st' = opt Sample.st /\ sched st' = sched Sample.st
       /\ ema_sched st' = ema_sched Sample.st
       /\ step st' = 10000 + 1
       /\ forall k : nat,
            get_last_lr (Nat.iter k sched_advance (sched st'))
            = get_last_lr (Nat.iter k sched_advance (sched Sample.st))
            /\ multiplier (sched st')
                 (lr_last_epoch (sched st') + Z.of_nat k)
               = multiplier (sched Sample.st)
                   (lr_last_epoch (sched Sample.st) + Z.of_nat k)
            /\ ema_get_value (Nat.iter k ema_sched_step (ema_sched st'))
               = ema_get_value
                   (Nat.iter k ema_sched_step (ema_sched Sample.st)).
Proof.
  apply (proj2 (proj2 (proj2 (proj2 (proj2 (proj2 (proj2 (proj2 (proj2
           (checkpoint_round_trip R
              Sample.args Sample.main_acc [1%R] 1%R Sample.gns0 Sample.st
              Sample.files)))))))))).
  reflexivity.
Defined.

Lemma metrics_log_append_only_witness :
  let run :=
    run_epochs Sample.sgd_step Sample.sgd_set_lr Sample.backbone Sample.coeff
      Sample.args Sample.main_acc [[Sample.inp]] Sample.st Sample.files in
  metrics_csv (world_of run)
  = Some (("step,fid,kid" +:+ newline) +:+ rows_of (trace_of run)).
Proof.
  apply (proj2 (proj2 (proj2
           (metrics_log_append_only R Sample.sgd_step Sample.sgd_set_lr
              Sample.backbone Sample.coeff Sample.args Sample.main_acc)))
           [[Sample.inp]] Sample.st Sample.files).
  reflexivity.
Defined.

(** ** The EMA warmup schedule *)

Section ScheduleFacts.
Local Open Scope R_scope.

Lemma fpow_zero (y : R) : y <> 0 -> fpow 0 y = 0.
Proof.
  intros Hy. unfold fpow.
  destruct (Req_dec_T 0 0) as [_ | H0]; [| contradiction].
  destruct (Req_dec_T y 0); [contradiction | reflexivity].
Qed.

Lemma fpow_pos (x y : R) : 0 < x -> fpow x y = Rpower x y.
Proof.
  intros Hx. unfold fpow. destruct (Req_dec_T x 0); [lra | reflexivity].
Qed.

Lemma fpow_nonneg (x y : R) : 0 <= fpow x y.
Proof.
  unfold fpow. destruct (Req_dec_T x 0).
  - destruct (Req_dec_T y 0); lra.
  - unfold Rpower. left. apply exp_pos.
Qed.

Lemma Rpower_exponent_zero (x : R) : Rpower x 0 = 1.
Proof. unfold Rpower. rewrite Rmult_0_l. apply exp_0. Qed.

(** [fpow] is monotone in a non-negative base for a non-negative
    exponent. *)
Lemma fpow_le_compat (a b c : R) :
  0 <= c -> 0 <= a <= b -> fpow a c <= fpow b c.
Proof.
  intros Hc [Ha Hab]. unfold fpow.
  destruct (Req_dec_T a 0) as [-> | Hna];
    destruct (Req_dec_T b 0) as [-> | Hnb].
  - lra.
  - destruct (Req_dec_T c 0) as [-> | Hnc].
    + rewrite Rpower_exponent_zero. lra.
    + left. apply exp_pos.
  - lra.
  - apply Rle_Rpower_l; [exact Hc | lra].
Qed.

Lemma warmup_base_0 : 1 - 1 / (IZR 0 + 1) = 0.
Proof. lra. Qed.

Lemma warmup_base_le (s1 s2 : Z) :
  (0 <= s1 <= s2)%Z ->
  0 <= 1 - 1 / (IZR s1 + 1) <= 1 - 1 / (IZR s2 + 1).
Proof.
  intros [H1 H2].
  assert (Hs1 : 0 <= IZR s1) by (apply IZR_le; exact H1).
  assert (Hs12 : IZR s1 <= IZR s2) by (apply IZR_le; exact H2).
  assert (Hi1 : / (IZR s1 + 1) <= 1).
  { rewrite <- Rinv_1 at 2. apply Rinv_le_contravar; lra. }
  assert (Hi2 : / (IZR s2 + 1) <= / (IZR s1 + 1)).
  { apply Rinv_le_contravar; lra. }
  unfold Rdiv. rewrite !Rmult_1_l. lra.
Qed.

Lemma ema_sched_iter (s : EMAWarmup) (n : nat) :
  Nat.iter n ema_sched_step s
  = {| ema_power := ema_power s; ema_max_value := ema_max_value s;
       ema_last_epoch := (ema_last_epoch s + Z.of_nat n)%Z |}.
Proof.
  induction n as [| n IH].
  - cbn. rewrite Z.add_0_r. destruct s; reflexivity.
  - rewrite Nat.iter_succ, IH. unfold ema_sched_step. cbn.
    f_equal. lia.
Qed.

(** C8. After [n] calls of [step] on a schedule built at counter 0,
    [get_value] is [min(max_value, (1 - 1/(n + 1))^power)]; for a
    non-negative [power] the decay is monotone non-decreasing in the
    step and never above [max_value]; and with [max_value = 0.999] and
    [power = 0.75] the decay at step 0 is 0. *)
Theorem ema_warmup_decay (power max_value : R) :
  0 <= power ->
  (forall n : nat,
     ema_get_value (Nat.iter n ema_sched_step (mkEMAWarmup power max_value 0))
     = Rmin max_value (fpow (1 - 1 / (INR n + 1)) power))
  /\ (forall step : Z, (1 <= step)%Z ->
        decay power max_value step
        = Rmin max_value (Rpower (1 - 1 / (IZR step + 1)) power))
  /\ (forall s1 s2 : Z, (0 <= s1 <= s2)%Z ->
        decay power max_value s1 <= decay power max_value s2)
  /\ (forall step : Z, decay power max_value step <= max_value)
  /\ decay (3 / 4) (999 / 1000) 0 = 0.
Proof.
  intros Hp. split; [| split; [| split; [| split]]].
  - intros n. rewrite ema_sched_iter. unfold ema_get_value. cbn.
    unfold decay. rewrite INR_IZR_INZ. reflexivity.
  - intros step Hs. unfold decay. rewrite fpow_pos; [reflexivity |].
    assert (H1 : 1 <= IZR step) by (apply IZR_le; exact Hs).
    assert (Hi : / (IZR step + 1) < 1).
    { rewrite <- Rinv_1 at 2. apply Rinv_lt_contravar; lra. }
    unfold Rdiv. rewrite Rmult_1_l. lra.
  - intros s1 s2 Hs. unfold decay. apply Rle_min_compat_l.
    apply fpow_le_compat; [exact Hp |].
    apply (warmup_base_le s1 s2 Hs).
  - intros step. unfold decay. apply Rmin_l.
  - unfold decay. rewrite warmup_base_0.
    rewrite fpow_zero by lra. apply Rmin_right. lra.
Qed.

End ScheduleFacts.

Lemma ema_warmup_decay_witness :
  (decay (3 / 4) (999 / 1000) 0 <= decay (3 / 4) (999 / 1000) 1000)%R
  /\ (decay (3 / 4) (999 / 1000) 1000000000 <= 999 / 1000)%R.
Proof.
  assert (Hp : (0 <= 3 / 4)%R) by lra.
  split.
  - apply (proj1 (proj2 (proj2 (ema_warmup_decay (3 / 4) (999 / 1000) Hp)))).
    lia.
  - apply (proj1 (proj2 (proj2 (proj2
             (ema_warmup_decay (3 / 4) (999 / 1000) Hp))))).
Defined.

(** ** The gradient-noise-scale estimator *)

(** C6. An update with [large_size == small_size] returns the estimator
    as it was, so both smoothed scalars and the reported noise scale are
    unchanged; in the loop, on a single process, where the large batch is
    the small batch, the gradient phase under [args.gns] leaves the
    estimator as it was. *)
Theorem gns_equal_sizes_noop {Optimizer : Type} :
  (forall g small_norm large_norm n,
     gns_update g small_norm large_norm n n = g
     /\ ema_sq_norm (gns_update g small_norm large_norm n n) = ema_sq_norm g
     /\ ema_var (gns_update g small_norm large_norm n n) = ema_var g
     /\ get_gns (gns_update g small_norm large_norm n n) = get_gns g)
  /\ (forall args acc inp (st : TrainState Optimizer) (w : World Optimizer) g,
        num_processes acc = 1 -> gns args = true ->
        gns_stats st = Some g ->
        exists st1,
          backward_phase args acc inp st w
          = ([EvZeroGrad; EvBackward; EvGnsUpdate], w, Ok st1)
          /\ gns_stats st1 = Some g).
Proof.
  assert (Hnoop : forall g small_norm large_norm n,
            gns_update g small_norm large_norm n n = g).
  { intros g sn ln n. unfold gns_update. rewrite Z.eqb_refl. reflexivity. }
  split.
  - intros g sn ln n. rewrite Hnoop. repeat split.
  - intros args acc inp st w g Hn Hg Hst.
    unfold backward_phase. rewrite Hg, Hst, Hn, Z.mul_1_r, Hnoop.
    eexists. split; reflexivity.
Qed.

Lemma gns_equal_sizes_noop_witness :
  exists st1,
    backward_phase Sample.args_gns Sample.main_acc Sample.inp Sample.st_gns
      Sample.files
    = ([EvZeroGrad; EvBackward; EvGnsUpdate], Sample.files, Ok st1)
    /\ gns_stats st1 = Some Sample.gns0.
Proof.
  apply (proj2 (@gns_equal_sizes_noop R) Sample.args_gns Sample.main_acc
           Sample.inp Sample.st_gns Sample.files Sample.gns0);
    reflexivity.
Defined.

(** ** The sampler *)

Section SamplerFacts.
Local Open Scope R_scope.
Variable lms_coeff : nat -> list R -> nat -> nat -> R.

Lemma vsub_diag (x : Tensor) : vsub x x = vzero (length x).
Proof.
  unfold vsub, vzero. induction x as [| a x IH]; [reflexivity |].
  cbn. rewrite IH. f_equal. lra.
Qed.

Lemma vdiv_zero (n : nat) (c : R) : vdiv (vzero n) c = vzero n.
Proof.
  unfold vdiv, vzero. induction n as [| n IH]; [reflexivity |].
  cbn. rewrite IH. f_equal. unfold Rdiv. apply Rmult_0_l.
Qed.

Lemma vscale_zero (n : nat) (c : R) : vscale c (vzero n) = vzero n.
Proof.
  unfold vscale, vzero. induction n as [| n IH]; [reflexivity |].
  cbn. rewrite IH. f_equal. apply Rmult_0_r.
Qed.

Lemma vadd_zero_r (x : Tensor) : vadd x (vzero (length x)) = x.
Proof.
  unfold vadd, vzero. induction x as [| a x IH]; [reflexivity |].
  cbn. rewrite IH. f_equal. apply Rplus_0_r.
Qed.

Lemma length_vzero (n : nat) : length (vzero n) = n.
Proof. apply repeat_length. Qed.

Lemma vsum_zero (n : nat) (terms : list Tensor) :
  List.Forall (eq (vzero n)) terms -> vsum n terms = vzero n.
Proof.
  unfold vsum. induction 1 as [| t terms <- _ IH]; [reflexivity |].
  cbn [fold_left].
  replace (vadd (vzero n) (vzero n)) with (vzero n); [exact IH |].
  rewrite <- (length_vzero n) at 3. symmetry. apply vadd_zero_r.
Qed.

Lemma scaled_zeros (n : nat) (coeffs : list R) (ds : list Tensor) :
  List.Forall (eq (vzero n)) ds ->
  List.Forall (eq (vzero n)) (zip_with vscale coeffs ds).
Proof.
  intros Hds. revert coeffs.
  induction Hds as [| d ds <- _ IH]; intros [| c coeffs]; cbn;
    try constructor.
  - symmetry. apply vscale_zero.
  - apply IH.
Qed.

Lemma history_zeros (n : nat) (ds : list Tensor) :
  List.Forall (eq (vzero n)) ds ->
  let ds1 := (ds ++ [vzero n])%list in
  List.Forall (eq (vzero n))
    (if (4 <? length ds1)%nat then tl ds1 else ds1).
Proof.
  intros Hds ds1.
  assert (H1 : List.Forall (eq (vzero n)) ds1).
  { apply List.Forall_app. split; [exact Hds | repeat constructor]. }
  destruct (4 <? length ds1)%nat; [| exact H1].
  destruct H1; [constructor | assumption].
Qed.

(** With a denoiser that returns its input, every step evaluates a zero
    derivative and leaves the state where it was. *)
Lemma lms_steps_identity (model : Tensor -> R -> Tensor) (sigmas : list R) :
  (forall x sigma, model x sigma = x) ->
  forall (n i : nat) (x : Tensor) (ds : list Tensor),
    List.Forall (eq (vzero (length x))) ds ->
    lms_steps lms_coeff model sigmas n i x ds
    = (x, repeat (vzero (length x)) n).
Proof.
  intros Hid. induction n as [| n IH]; intros i x ds Hds; [reflexivity |].
  cbn [lms_steps]. unfold to_d. rewrite Hid, vsub_diag, vdiv_zero.
  pose proof (history_zeros _ ds Hds) as Hh. cbv zeta in Hh.
  set (ds2 := if (4 <? length (ds ++ [vzero (length x)]))%nat
              then tl (ds ++ [vzero (length x)])
              else (ds ++ [vzero (length x)])%list) in *.
  rewrite vsum_zero
    by (apply scaled_zeros, List.Forall_rev; exact Hh).
  rewrite vadd_zero_r, (IH (S i) x ds2 Hh). reflexivity.
Qed.

(** C7. With a denoiser that returns its input unchanged, the
    linear-multistep sampler evaluates one derivative per step of the
    schedule, every one of them zero, and returns the state it started
    from, whatever the schedule and the multistep weights. *)
Theorem sample_lms_identity (model : Tensor -> R -> Tensor)
    (x : Tensor) (sigmas : list R) :
  (forall y sigma, model y sigma = y) ->
  sample_lms lms_coeff model x sigmas = x
  /\ length (snd (sample_lms_trace lms_coeff model x sigmas))
     = (length sigmas - 1)%nat
  /\ List.Forall (fun d => d = vzero (length x))
       (snd (sample_lms_trace lms_coeff model x sigmas)).
Proof.
  intros Hid. unfold sample_lms, sample_lms_trace.
  rewrite (lms_steps_identity model sigmas Hid) by constructor.
  cbn [fst snd]. split; [reflexivity |]. split.
  - apply repeat_length.
  - apply List.Forall_forall. intros d Hd.
    apply repeat_spec in Hd. exact Hd.
Qed.

End SamplerFacts.

Lemma sample_lms_identity_witness :
  sample_lms Sample.coeff (fun y _ => y) [80%R; (-40)%R]
    (get_sigmas_karras 50 sigma_min sigma_max 7)
  = [80%R; (-40)%R].
Proof.
  apply (sample_lms_identity Sample.coeff (fun y _ => y) [80%R; (-40)%R]
           (get_sigmas_karras 50 sigma_min sigma_max 7)).
  reflexivity.
Defined.

(** ** The noise schedule *)

Section KarrasFacts.
Local Open Scope R_scope.

Lemma get_sigmas_karras_length (n : nat) (smin smax rho : R) :
  length (get_sigmas_karras n smin smax rho) = S n.
Proof.
  unfold get_sigmas_karras.
  destruct n as [| [| n]]; [reflexivity | reflexivity |].
  rewrite length_app, length_map, length_seq. cbn [length]. lia.
Qed.

Lemma get_sigmas_karras_last (n : nat) (smin smax rho : R) :
  List.last (get_sigmas_karras n smin smax rho) 1 = 0.
Proof.
  unfold get_sigmas_karras.
  destruct n as [| [| n]]; [reflexivity | reflexivity |].
  apply last_last.
Qed.

Lemma get_sigmas_karras_split (n : nat) (smin smax rho : R) :
  exists levels,
    length levels = n
    /\ get_sigmas_karras n smin smax rho = (levels ++ [0])%list.
Proof.
  unfold get_sigmas_karras. destruct n as [| [| n]].
  - exists []. split; reflexivity.
  - exists [smax]. split; reflexivity.
  - eexists. split; [| reflexivity].
    rewrite length_map, length_seq. reflexivity.
Qed.

(** A strictly decreasing function of the index gives a strictly
    decreasing list over a run of indices. *)
Lemma sorted_map_seq (f : nat -> R) (k : nat) :
  forall a : nat,
    (forall i j : nat, (a <= i < j)%nat -> (j < a + k)%nat -> f i > f j) ->
    StronglySorted Rgt (map f (seq a k)).
Proof.
  induction k as [| k IH]; intros a Hf; cbn [seq map]; constructor.
  - apply IH. intros i j Hij Hj. apply Hf; lia.
  - apply List.Forall_forall. intros y Hy.
    apply in_map_iff in Hy as (j & <- & Hj). apply in_seq in Hj.
    apply Hf; lia.
Qed.

Lemma sorted_snoc (l : list R) (y : R) :
  StronglySorted Rgt l -> List.Forall (fun x => x > y) l ->
  StronglySorted Rgt (l ++ [y]).
Proof.
  induction 1 as [| x l Hl IH Hx]; intros Hy; cbn [app].
  - repeat constructor.
  - inversion Hy as [| ? ? Hxy Hly]; subst. constructor.
    + apply IH. exact Hly.
    + apply List.Forall_app. split; [exact Hx | repeat constructor].
      exact Hxy.
Qed.

Lemma get_sigmas_karras_levels (n : nat) (smin smax rho : R) :
  n <> 1%nat ->
  get_sigmas_karras n smin smax rho
  = (map (karras_sigma n smin smax rho) (seq 0 n) ++ [0])%list.
Proof.
  intros Hn. unfold get_sigmas_karras.
  destruct n as [| [| n]]; [reflexivity | contradiction | reflexivity].
Qed.

Lemma hd_map_seq (f : nat -> R) (n : nat) (d z : R) :
  (0 < n)%nat -> hd d (map f (seq 0 n) ++ [z]) = f 0%nat.
Proof. intros Hn. destruct n as [| n]; [lia | reflexivity]. Qed.

Section Levels.
Variables (n : nat) (smin smax rho : R).
Hypothesis Hn : (2 <= n)%nat.
Hypothesis Hmin : 0 < smin.
Hypothesis Hmax : smin < smax.
Hypothesis Hrho : 0 < rho.

Let a := Rpower smax (1 / rho).
Let b := Rpower smin (1 / rho).

Lemma inv_rho_pos : 0 < 1 / rho.
Proof. unfold Rdiv. rewrite Rmult_1_l. apply Rinv_0_lt_compat, Hrho. Qed.

Lemma ends_ordered : 0 < b < a.
Proof.
  split; [apply exp_pos |].
  apply Rlt_Rpower_l; [apply inv_rho_pos | lra].
Qed.

Lemma steps_pos : 0 < INR n - 1.
Proof.
  assert (H : INR 2 <= INR n) by (apply le_INR, Hn).
  cbn in H. lra.
Qed.

(** The ramp [i / (n - 1)] stays in [0, 1] and grows with [i]. *)
Lemma ramp_bounds (i : nat) :
  (i < n)%nat -> 0 <= INR i / (INR n - 1) <= 1.
Proof.
  intros Hi. pose proof steps_pos as Hs.
  assert (H0 : 0 <= INR i) by apply pos_INR.
  assert (H1 : INR i <= INR n - 1).
  { assert (H : INR (S i) <= INR n) by (apply le_INR; lia).
    rewrite S_INR in H. lra. }
  split.
  - apply Rmult_le_pos; [exact H0 |]. left. apply Rinv_0_lt_compat, Hs.
  - apply (Rmult_le_reg_r (INR n - 1)); [exact Hs |].
    unfold Rdiv. rewrite Rmult_assoc, Rinv_l by lra. lra.
Qed.

Lemma ramp_lt (i j : nat) :
  (i < j)%nat -> INR i / (INR n - 1) < INR j / (INR n - 1).
Proof.
  intros Hij. pose proof steps_pos as Hs.
  apply Rmult_lt_compat_r; [apply Rinv_0_lt_compat, Hs |].
  apply lt_INR, Hij.
Qed.

Lemma karras_sigma_eq (i : nat) :
  (i < n)%nat ->
  karras_sigma n smin smax rho i
  = Rpower (a + INR i / (INR n - 1) * (b - a)) rho
  /\ 0 < a + INR i / (INR n - 1) * (b - a).
Proof.
  intros Hi. pose proof ends_ordered as [Hb Hab].
  pose proof (ramp_bounds i Hi) as [Hr0 Hr1].
  assert (Hbase : 0 < a + INR i / (INR n - 1) * (b - a)) by nra.
  split; [| exact Hbase].
  unfold karras_sigma. rewrite !(fpow_pos _ (1 / rho)) by lra.
  fold a b. apply fpow_pos, Hbase.
Qed.

Lemma karras_sigma_pos (i : nat) :
  (i < n)%nat -> karras_sigma n smin smax rho i > 0.
Proof.
  intros Hi. destruct (karras_sigma_eq i Hi) as [-> _]. apply exp_pos.
Qed.

Lemma karras_sigma_decreasing (i j : nat) :
  (i < j)%nat -> (j < n)%nat ->
  karras_sigma n smin smax rho i > karras_sigma n smin smax rho j.
Proof.
  intros Hij Hj. pose proof ends_ordered as [Hb Hab].
  destruct (karras_sigma_eq i ltac:(lia)) as [-> _].
  destruct (karras_sigma_eq j Hj) as [-> Hpos].
  pose proof (ramp_lt i j Hij) as Hr.
  apply Rlt_Rpower_l; [exact Hrho |]. split; [exact Hpos | nra].
Qed.

Lemma karras_sigma_first : karras_sigma n smin smax rho 0 = smax.
Proof.
  destruct (karras_sigma_eq 0%nat ltac:(lia)) as [-> _].
  cbn [INR]. unfold Rdiv at 1. rewrite !Rmult_0_l, Rplus_0_r.
  unfold a. rewrite Rpower_mult.
  replace (1 / rho * rho) with 1 by (field; lra).
  apply Rpower_1. lra.
Qed.

Lemma get_sigmas_karras_sorted :
  StronglySorted Rgt (get_sigmas_karras n smin smax rho).
Proof.
  rewrite get_sigmas_karras_levels by lia.
  apply sorted_snoc.
  - apply sorted_map_seq. intros i j Hij Hj.
    apply karras_sigma_decreasing; lia.
  - apply List.Forall_forall. intros y Hy.
    apply in_map_iff in Hy as (i & <- & Hi). apply in_seq in Hi.
    apply karras_sigma_pos. lia.
Qed.

Lemma get_sigmas_karras_first :
  hd 0 (get_sigmas_karras n smin smax rho) = smax.
Proof.
  rewrite get_sigmas_karras_levels by lia.
  rewrite hd_map_seq by lia. apply karras_sigma_first.
Qed.
End Levels.

(** C5. The schedule is [n_steps] levels followed by an appended 0, so
    its length is [n_steps + 1] and its last element is 0; the schedule
    of 10 steps from 0.01 to 80 with rho 7 has length 11, is strictly
    decreasing, starts at 80 and ends at 0; and the single-step schedule
    is [[sigma_max, 0]]. *)
Theorem get_sigmas_karras_shape :
  (forall n smin smax rho,
     (exists levels,
        length levels = n
        /\ get_sigmas_karras n smin smax rho = (levels ++ [0])%list)
     /\ length (get_sigmas_karras n smin smax rho) = S n
     /\ List.last (get_sigmas_karras n smin smax rho) 1 = 0)
  /\ (let sigmas := get_sigmas_karras 10 (1 / 100) 80 7 in
      length sigmas = 11%nat
      /\ StronglySorted Rgt sigmas
      /\ hd 0 sigmas = 80
      /\ List.last sigmas 1 = 0)
  /\ (forall smin smax rho, get_sigmas_karras 1 smin smax rho = [smax; 0]).
Proof.
  split; [| split].
  - intros n smin smax rho. split; [apply get_sigmas_karras_split |].
    split; [apply get_sigmas_karras_length | apply get_sigmas_karras_last].
  - cbv zeta. split; [apply get_sigmas_karras_length |].
    split; [apply get_sigmas_karras_sorted; (lia || lra) |].
    split; [apply get_sigmas_karras_first; (lia || lra) |].
    apply get_sigmas_karras_last.
  - reflexivity.
Qed.

End KarrasFacts.

(** ** More on the execution monad *)

Section ExecRelations.
Context {W : Type}.

Lemma bind_trace_Forall_ok {A B} (P : Event -> Prop) (m : Exec W A)
    (f : A -> Exec W B) w :
  Forall P (trace_of (m w)) ->
  (forall t w1 a, m w = (t, w1, Ok a) -> Forall P (trace_of (f a w1))) ->
  Forall P (trace_of (bind m f w)).
Proof.
  intros Hm Hf. unfold bind.
  destruct (m w) as [[t w1] [a | e]] eqn:Hmw; [| exact Hm].
  specialize (Hf t w1 a eq_refl). destruct (f a w1) as [[t' w2] r].
  apply Forall_app. split; assumption.
Qed.

(** A reflexive and transitive relation between the files before and
    after carries over a sequence of computations. *)
Lemma bind_world_rel {A B} (Rw : W -> W -> Prop) (m : Exec W A)
    (f : A -> Exec W B) :
  (forall w1 w2 w3, Rw w1 w2 -> Rw w2 w3 -> Rw w1 w3) ->
  (forall w, Rw w (world_of (m w))) ->
  (forall a w, Rw w (world_of (f a w))) ->
  forall w, Rw w (world_of (bind m f w)).
Proof.
  intros Htrans Hm Hf w. unfold bind. specialize (Hm w).
  destruct (m w) as [[t w1] [a | e]]; [| exact Hm].
  specialize (Hf a w1). destruct (f a w1) as [[t' w2] r].
  exact (Htrans _ _ _ Hm Hf).
Qed.


Lemma py_mod_ok (a b r : Z) (w w1 : W) t :
  py_mod a b w = (t, w1, Ok r) -> b <> 0 /\ r = a mod b /\ w1 = w.
Proof.
  unfold py_mod. destruct (Z.eqb_spec b 0); [discriminate |].
  intros [= _ <- <-]. repeat split. exact n.
Qed.

Lemma py_mod_world (a b : Z) (w : W) : world_of (py_mod a b w) = w.
Proof. unfold py_mod. destruct (b =? 0); reflexivity. Qed.
End ExecRelations.

(** ** The loop over whole runs *)

Section LoopFacts.
Variable Optimizer : Type.
Variable optimizer_step : Optimizer -> Tensor -> Tensor -> Optimizer * Tensor.
Variable set_lr : Optimizer -> R -> Optimizer.
Variable inner_model : Tensor -> Tensor -> R -> Tensor.
Variable lms_coeff : nat -> list R -> nat -> nat -> R.

Abbreviation LState := (TrainState Optimizer).
Abbreviation LFiles := (World Optimizer).
Abbreviation one_pass :=
  (train_iteration optimizer_step set_lr inner_model lms_coeff).
Abbreviation passes :=
  (run_epochs optimizer_step set_lr inner_model lms_coeff).
Abbreviation whole_run :=
  (main_run optimizer_step set_lr inner_model lms_coeff).

(** *** Where the periodic actions can sit *)

Lemma periodic_trace_allowed args acc inp (st : LState) (w : LFiles) :
  Forall (trigger_allows args)
         (trace_of (periodic_phase inner_model lms_coeff args acc inp st w)).
Proof.
  unfold periodic_phase.
  apply bind_trace_Forall; [| intros _ w1; apply bind_trace_Forall].
  - unfold demo_trigger. apply bind_trace_Forall_ok.
    + rewrite py_mod_trace. constructor.
    + intros t w1 r Hr. apply py_mod_ok in Hr as (Hd & -> & ->).
      destruct (Z.eqb_spec (step st mod demo_every args) 0) as [Hz | _];
        [| constructor].
      destruct (demo_exec Optimizer inner_model lms_coeff args acc inp st w)
        as (w' & -> & _).
      repeat constructor; assumption.
  - unfold evaluate_trigger.
    destruct (Z.ltb_spec 0 (step st)) as [Hpos | _]; [| constructor].
    destruct (Z.ltb_spec 0 (evaluate_every args)) as [Hev | _];
      [| constructor].
    cbn [andb]. apply bind_trace_Forall_ok.
    + rewrite py_mod_trace. constructor.
    + intros t w2 r Hr. apply py_mod_ok in Hr as (_ & -> & ->).
      destruct (Z.eqb_spec (step st mod evaluate_every args) 0)
        as [Hz | _]; [| constructor].
      rewrite evaluate_exec. repeat constructor; assumption.
  - intros _ w2. unfold save_trigger.
    destruct (Z.ltb_spec 0 (step st)) as [Hpos | _]; [| constructor].
    apply bind_trace_Forall_ok.
    + rewrite py_mod_trace. constructor.
    + intros t w3 r Hr. apply py_mod_ok in Hr as (Hs & -> & ->).
      destruct (Z.eqb_spec (step st mod save_every args) 0) as [Hz | _];
        [| constructor].
      rewrite save_exec. repeat constructor; assumption.
Qed.

Lemma one_pass_trace_allowed args acc inp (st : LState) (w : LFiles) :
  Forall (trigger_allows args) (trace_of (one_pass args acc inp st w)).
Proof.
  unfold train_iteration.
  apply bind_trace_Forall; [| intros st1 w1; apply bind_trace_Forall].
  - unfold backward_phase.
    destruct (gns args); [destruct (gns_stats st) |]; cbn;
      repeat constructor.
  - unfold update_phase.
    destruct (optimizer_step (opt st1) (model st1) (grads inp)).
    cbn. repeat constructor.
  - intros st2 w2. apply bind_trace_Forall.
    + apply periodic_trace_allowed.
    + intros _ w3. constructor.
Qed.

Lemma run_batches_trace_allowed args acc batches :
  forall (st : LState) (w : LFiles),
    Forall (trigger_allows args)
      (trace_of (run_batches optimizer_step set_lr inner_model lms_coeff
                   args acc batches st w)).
Proof.
  induction batches as [| inp rest IH]; intros st w; cbn [run_batches].
  - constructor.
  - apply bind_trace_Forall; [apply one_pass_trace_allowed |].
    intros st' w'. apply IH.
Qed.

(** X5. Whatever the arguments and however the run ends, every demo in
    its trace sits at a multiple of a non-zero [demo_every], every
    evaluation at a positive multiple of a positive [evaluate_every], and
    every save at a positive multiple of a non-zero [save_every]. *)
Theorem periodic_actions_only_where_allowed args acc epochs :
  forall (st : LState) (w : LFiles),
    Forall (trigger_allows args) (trace_of (passes args acc epochs st w)).
Proof.
  induction epochs as [| batches rest IH]; intros st w; cbn [run_epochs].
  - constructor.
  - apply bind_trace_Forall; [| intros st' w'; apply IH].
    unfold run_epoch. apply bind_trace_Forall.
    + apply run_batches_trace_allowed.
    + intros st' w'. constructor.
Qed.

(** *** What a run leaves on disk *)

Lemma keeps_bind {A B} (m : Exec LFiles A) (f : A -> Exec LFiles B) :
  (forall w, world_of (m w) = w) ->
  (forall a w, world_of (f a w) = w) ->
  forall w, world_of (bind m f w) = w.
Proof.
  intros Hm Hf.
  apply (bind_world_rel (fun w w' => w' = w)); [congruence | exact Hm |].
  exact Hf.
Qed.

Lemma ckpt_get_world ckpt key (w : LFiles) :
  world_of (ckpt_get ckpt key w) = w.
Proof. unfold ckpt_get. destruct (ckpt !! key); reflexivity. Qed.

Lemma resume_from_world args ckpt (st : LState) (w : LFiles) :
  world_of (resume_from args ckpt st w) = w.
Proof.
  revert w. unfold resume_from.
  repeat (apply keeps_bind;
          [intros w; first [apply ckpt_get_world
                           | match goal with
                             | |- context [?f ?v w] => destruct v; reflexivity
                             end]
          | intros ?]).
  apply keeps_bind; [| reflexivity].
  intros w. unfold resume_gns.
  destruct (gns args); [| reflexivity].
  destruct (ckpt !! "gns_stats") as [[] |]; try reflexivity;
    destruct (gns_stats st); reflexivity.
Qed.

Lemma load_or_init_world args (st : LState) (w : LFiles) :
  world_of (load_or_init args st w) = w.
Proof.
  unfold load_or_init. destruct (resume args) as [[| c path] |];
    try reflexivity.
  revert w. apply keeps_bind.
  - intros w. unfold torch_load. destruct (pth_files w !! _); reflexivity.
  - intros ckpt w. apply resume_from_world.
Qed.




Lemma files_kept_refl (w : LFiles) : files_kept w w.
Proof. repeat split; auto. Qed.

Lemma files_kept_trans (w1 w2 w3 : LFiles) :
  files_kept w1 w2 -> files_kept w2 w3 -> files_kept w1 w3.
Proof.
  intros (Ha & Hb & Hc) (Ha' & Hb' & Hc'). repeat split; auto.
Qed.

Lemma kept_bind {A B} (m : Exec LFiles A) (f : A -> Exec LFiles B) :
  (forall w, files_kept w (world_of (m w))) ->
  (forall a w, files_kept w (world_of (f a w))) ->
  forall w, files_kept w (world_of (bind m f w)).
Proof. apply bind_world_rel, files_kept_trans. Qed.

Lemma kept_same {A} (m : Exec LFiles A) :
  (forall w, world_of (m w) = w) -> forall w, files_kept w (world_of (m w)).
Proof. intros Hm w. rewrite Hm. apply files_kept_refl. Qed.

Lemma kept_write_pth name obj (w : LFiles) :
  files_kept w (write_pth name obj w).
Proof.
  repeat split; auto. intros p Hp. cbn.
  apply lookup_insert_is_Some'. right. exact Hp.
Qed.

Lemma kept_write_png name grid (w : LFiles) :
  files_kept w (write_png name grid w).
Proof.
  repeat split; auto. intros p Hp. cbn.
  apply lookup_insert_is_Some'. right. exact Hp.
Qed.

Lemma kept_print line (w : LFiles) : files_kept w (print_to_log line w).
Proof. split; [intros _; cbn; eauto | split; auto]. Qed.

Lemma kept_open (w : LFiles) : files_kept w (open_metrics_file w).
Proof.
  unfold open_metrics_file. destruct (metrics_csv w) eqn:Hc;
    [apply files_kept_refl |].
  split; [intros _; cbn; eauto | split; auto].
Qed.

Lemma one_pass_keeps_files args acc inp (st : LState) :
  forall w : LFiles, files_kept w (world_of (one_pass args acc inp st w)).
Proof.
  unfold train_iteration.
  apply kept_bind; [| intros st1; apply kept_bind].
  - apply kept_same. intros w. unfold backward_phase.
    destruct (gns args); [destruct (gns_stats st) |]; reflexivity.
  - apply kept_same. intros w. unfold update_phase.
    destruct (optimizer_step (opt st1) (model st1) (grads inp)).
    reflexivity.
  - intros st2. apply kept_bind; [| intros _; apply kept_same; reflexivity].
    unfold periodic_phase.
    apply kept_bind; [| intros _; apply kept_bind; [| intros _]].
    + unfold demo_trigger.
      apply kept_bind; [apply kept_same, py_mod_world |].
      intros r w. destruct (r =? 0); [| apply files_kept_refl].
      unfold demo. destruct (is_main_process acc);
        [apply kept_write_png | apply files_kept_refl].
    + unfold evaluate_trigger. intros w.
      destruct (_ && _); [| apply files_kept_refl]. revert w.
      apply kept_bind; [apply kept_same, py_mod_world |].
      intros r w. destruct (r =? 0); [| apply files_kept_refl].
      rewrite evaluate_exec. destruct (is_main_process acc);
        [apply kept_print | apply files_kept_refl].
    + unfold save_trigger. intros w.
      destruct (0 <? step st2); [| apply files_kept_refl]. revert w.
      apply kept_bind; [apply kept_same, py_mod_world |].
      intros r w. destruct (r =? 0); [| apply files_kept_refl].
      rewrite save_exec. destruct (is_main_process acc);
        [apply kept_write_pth | apply files_kept_refl].
Qed.

Lemma passes_keep_files args acc epochs :
  forall (st : LState) (w : LFiles),
    files_kept w (world_of (passes args acc epochs st w)).
Proof.
  assert (Hb : forall batches (st : LState) w,
             files_kept w
               (world_of (run_batches optimizer_step set_lr inner_model
                            lms_coeff args acc batches st w))).
  { induction batches as [| inp rest IH]; intros st; cbn [run_batches];
      [intros w; apply files_kept_refl |].
    apply kept_bind; [apply one_pass_keeps_files | exact IH]. }
  induction epochs as [| batches rest IH]; intros st; cbn [run_epochs];
    [intros w; apply files_kept_refl |].
  apply kept_bind; [| exact IH].
  unfold run_epoch. apply kept_bind; [apply Hb |].
  intros st' w. apply files_kept_refl.
Qed.

(** X7. A run deletes nothing: the metrics log, every checkpoint and
    every demo grid that exists before the setup and the passes still
    exists after them, however the run ends. *)
Theorem run_deletes_no_file args acc params opt0 gns0 epochs (w : LFiles) :
  let w' := world_of (whole_run args acc params opt0 gns0 epochs w) in
  (is_Some (metrics_csv w) -> is_Some (metrics_csv w'))
  /\ (forall p, is_Some (pth_files w !! p) -> is_Some (pth_files w' !! p))
  /\ (forall p, is_Some (png_files w !! p) -> is_Some (png_files w' !! p)).
Proof.
  cbv zeta. change (files_kept w
    (world_of (whole_run args acc params opt0 gns0 epochs w))).
  revert w. unfold main_run.
  apply kept_bind; [| intros st; apply passes_keep_files].
  unfold main_setup.
  apply kept_bind; [apply kept_same, load_or_init_world |].
  intros st. apply kept_bind; [| intros _ w; apply files_kept_refl].
  intros w. unfold open_metrics_log.
  destruct (is_main_process acc); [apply kept_open | apply files_kept_refl].
Qed.

(** *** The setup logs nothing *)

Lemma silent_bind {A B} (m : Exec LFiles A) (f : A -> Exec LFiles B) :
  (forall w, trace_of (m w) = []) ->
  (forall a w, trace_of (f a w) = []) ->
  forall w, trace_of (bind m f w) = [].
Proof.
  intros Hm Hf w. unfold bind. specialize (Hm w).
  destruct (m w) as [[t w1] [a | e]]; [| exact Hm].
  specialize (Hf a w1). destruct (f a w1) as [[t' w2] r].
  cbn in *. subst. reflexivity.
Qed.

Lemma resume_from_silent args ckpt (st : LState) (w : LFiles) :
  trace_of (resume_from args ckpt st w) = [].
Proof.
  revert w. unfold resume_from.
  repeat (apply silent_bind;
          [intros w; first [unfold ckpt_get;
                            match goal with
                            | |- context [ckpt !! ?k] =>
                                destruct (ckpt !! k); reflexivity
                            end
                           | match goal with
                             | |- context [?f ?v w] => destruct v; reflexivity
                             end]
          | intros ?]).
  apply silent_bind; [| reflexivity].
  intros w. unfold resume_gns.
  destruct (gns args); [| reflexivity].
  destruct (ckpt !! "gns_stats") as [[] |]; try reflexivity;
    destruct (gns_stats st); reflexivity.
Qed.

Lemma load_or_init_silent args (st : LState) (w : LFiles) :
  trace_of (load_or_init args st w) = [].
Proof.
  unfold load_or_init. destruct (resume args) as [[| c path] |];
    try reflexivity.
  revert w. apply silent_bind.
  - intros w. unfold torch_load. destruct (pth_files w !! _); reflexivity.
  - intros ckpt w. apply resume_from_silent.
Qed.

Lemma load_or_init_shape args (st : LState) (w : LFiles) :
  exists r, load_or_init args st w = ([], w, r).
Proof.
  pose proof (load_or_init_silent args st w) as Ht.
  pose proof (load_or_init_world args st w) as Hw.
  destruct (load_or_init args st w) as [[t w'] r]. cbn in *. subst.
  eauto.
Qed.

(** *** What a resume that returns has read *)

Lemma ckpt_get_inv ckpt key (w w' : LFiles) t v :
  ckpt_get ckpt key w = (t, w', Ok v) -> ckpt !! key = Some v.
Proof.
  unfold ckpt_get. destruct (ckpt !! key); [| discriminate].
  intros [= _ _ ->]. reflexivity.
Qed.

Lemma as_params_inv v (w w' : LFiles) t p :
  as_params v w = (t, w', Ok p) -> v = VParams p.
Proof. destruct v; try discriminate. intros [= _ _ ->]. reflexivity. Qed.

Lemma as_opt_inv v (w w' : LFiles) t o :
  as_opt v w = (t, w', Ok o) -> v = VOpt o.
Proof. destruct v; try discriminate. intros [= _ _ ->]. reflexivity. Qed.

Lemma as_sched_inv v (w w' : LFiles) t sc :
  as_sched v w = (t, w', Ok sc) -> v = VSched sc.
Proof. destruct v; try discriminate. intros [= _ _ ->]. reflexivity. Qed.

Lemma as_ema_sched_inv v (w w' : LFiles) t es :
  as_ema_sched v w = (t, w', Ok es) -> v = VEmaSched es.
Proof. destruct v; try discriminate. intros [= _ _ ->]. reflexivity. Qed.

Lemma as_int_inv v (w w' : LFiles) t z :
  as_int v w = (t, w', Ok z) -> v = VInt z.
Proof. destruct v; try discriminate. intros [= _ _ ->]. reflexivity. Qed.

Lemma resume_from_inv args ckpt (cur st' : LState) (w w' : LFiles) t :
  resume_from args ckpt cur w = (t, w', Ok st') ->
  ckpt !! "model" = Some (VParams (model st'))
  /\ ckpt !! "model_ema" = Some (VParams (model_ema st'))
  /\ ckpt !! "opt" = Some (VOpt (opt st'))
  /\ ckpt !! "sched" = Some (VSched (sched st'))
  /\ ckpt !! "ema_sched" = Some (VEmaSched (ema_sched st'))
  /\ ckpt !! "epoch" = Some (VInt (epoch st' - 1))
  /\ ckpt !! "step" = Some (VInt (step st' - 1)).
Proof.
  unfold resume_from. intros H.
  apply bind_inv_ok in H as (? & ? & v1 & ? & G1 & H & _).
  apply bind_inv_ok in H as (? & ? & p & ? & A1 & H & _).
  apply bind_inv_ok in H as (? & ? & v2 & ? & G2 & H & _).
  apply bind_inv_ok in H as (? & ? & pe & ? & A2 & H & _).
  apply bind_inv_ok in H as (? & ? & v3 & ? & G3 & H & _).
  apply bind_inv_ok in H as (? & ? & o & ? & A3 & H & _).
  apply bind_inv_ok in H as (? & ? & v4 & ? & G4 & H & _).
  apply bind_inv_ok in H as (? & ? & sc & ? & A4 & H & _).
  apply bind_inv_ok in H as (? & ? & v5 & ? & G5 & H & _).
  apply bind_inv_ok in H as (? & ? & es & ? & A5 & H & _).
  apply bind_inv_ok in H as (? & ? & v6 & ? & G6 & H & _).
  apply bind_inv_ok in H as (? & ? & e & ? & A6 & H & _).
  apply bind_inv_ok in H as (? & ? & v7 & ? & G7 & H & _).
  apply bind_inv_ok in H as (? & ? & n & ? & A7 & H & _).
  apply bind_inv_ok in H as (? & ? & g & ? & _ & H & _).
  injection H as _ _ <-.
  apply ckpt_get_inv in G1, G2, G3, G4, G5, G6, G7.
  apply as_params_inv in A1, A2. apply as_opt_inv in A3.
  apply as_sched_inv in A4. apply as_ema_sched_inv in A5.
  apply as_int_inv in A6, A7. subst.
  cbn [model model_ema opt sched ema_sched epoch step].
  replace (e + 1 - 1) with e by lia. replace (n + 1 - 1) with n by lia.
  repeat split; assumption.
Qed.


(** *** Counters over whole runs *)

Lemma backward_phase_fields args acc inp (st st1 : LState) (w w1 : LFiles) t :
  backward_phase args acc inp st w = (t, w1, Ok st1) ->
  w1 = w /\ model st1 = model st /\ model_ema st1 = model_ema st
  /\ opt st1 = opt st /\ sched st1 = sched st
  /\ ema_sched st1 = ema_sched st /\ epoch st1 = epoch st
  /\ step st1 = step st
  /\ (is_Some (gns_stats st1) <-> is_Some (gns_stats st)).
Proof.
  unfold backward_phase.
  destruct (gns args); [destruct (gns_stats st) eqn:Hg |]; cbn;
    intros [= <- <- <-]; repeat split; cbn; try rewrite Hg; eauto.
Qed.

(** The state a pass returns, field by field. *)
Lemma one_pass_state args acc inp (st st' : LState) (w w' : LFiles) t :
  one_pass args acc inp st w = (t, w', Ok st') ->
  step st' = step st + 1 /\ epoch st' = epoch st
  /\ sched st' = sched_advance (sched st)
  /\ ema_sched st' = ema_sched_step (ema_sched st)
  /\ model st' = snd (optimizer_step (opt st) (model st) (grads inp))
  /\ model_ema st'
     = ema_update (model st') (model_ema st) (ema_get_value (ema_sched st))
  /\ (is_Some (gns_stats st') <-> is_Some (gns_stats st)).
Proof.
  unfold train_iteration. intros Hrun.
  apply bind_inv_ok in Hrun as (t1 & w1 & st1 & t2 & Hb & Hrun & _).
  apply bind_inv_ok in Hrun as (t3 & w2 & st2 & t4 & Hu & Hrun & _).
  apply bind_inv_ok in Hrun as (t5 & w3 & [] & t6 & _ & Hret & _).
  injection Hret as _ _ <-.
  apply backward_phase_fields in Hb
    as (_ & Hm & Hme & Ho & Hs & Hes & Hep & Hst & Hg).
  destruct (update_phase_exec Optimizer optimizer_step set_lr inp st1 w1)
    as (st2' & Hu' & Hm2 & Hme2 & Hes2 & Hs2 & Hg2 & Hep2 & Hst2).
  rewrite Hu in Hu'. injection Hu' as _ _ <-.
  cbn [incr_step step epoch sched ema_sched model model_ema gns_stats].
  rewrite Hst in Hst2. rewrite Hep in Hep2. rewrite Hs in Hs2.
  rewrite Hes in Hes2, Hme2. rewrite Hme in Hme2. rewrite Ho, Hm in Hm2.
  rewrite Hg2, Hst2.
  split; [reflexivity |]. do 5 (split; [assumption |]). exact Hg.
Qed.

Lemma run_epochs_counters args acc epochs :
  forall (st st' : LState) (w w' : LFiles) t,
    passes args acc epochs st w = (t, w', Ok st') ->
    step st' = step st + Z.of_nat (length (concat epochs))
    /\ epoch st' = epoch st + Z.of_nat (length epochs).
Proof.
  induction epochs as [| batches rest IH]; intros st st' w w' t Hrun.
  - injection Hrun as _ _ <-. cbn. split; lia.
  - cbn [run_epochs] in Hrun.
    apply bind_inv_ok in Hrun as (t1 & w1 & st1 & t2 & H1 & H2 & _).
    apply (run_epoch_counters Optimizer optimizer_step set_lr inner_model
             lms_coeff) in H1 as [Hs He].
    apply IH in H2 as [Hs' He'].
    rewrite Hs', He', Hs, He. cbn [concat length].
    rewrite length_app. split; lia.
Qed.

(** X10. When passes over the data return, the step has advanced by the
    number of batches drawn in all of them and the epoch by the number of
    passes. *)
Theorem run_advances_counters args acc epochs (st st' : LState)
    (w w' : LFiles) t :
  passes args acc epochs st w = (t, w', Ok st') ->
  step st' = step st + Z.of_nat (length (concat epochs))
  /\ epoch st' = epoch st + Z.of_nat (length epochs).
Proof. apply run_epochs_counters. Qed.

Lemma one_pass_counters_in_step args acc inp (st st' : LState)
    (w w' : LFiles) t :
  one_pass args acc inp st w = (t, w', Ok st') ->
  counters_in_step st -> counters_in_step st'.
Proof.
  intros Hrun [He Hl].
  apply one_pass_state in Hrun as (Hs & _ & Hsc & Hes & _).
  unfold counters_in_step. rewrite Hs, Hsc, Hes. cbn. split; lia.
Qed.

Lemma passes_counters_in_step args acc epochs :
  forall (st st' : LState) (w w' : LFiles) t,
    passes args acc epochs st w = (t, w', Ok st') ->
    counters_in_step st -> counters_in_step st'.
Proof.
  assert (Hb : forall batches (st st' : LState) w w' t,
             run_batches optimizer_step set_lr inner_model lms_coeff args
               acc batches st w = (t, w', Ok st') ->
             counters_in_step st -> counters_in_step st').
  { induction batches as [| inp rest IH]; intros st st' w w' t Hrun Hc.
    - injection Hrun as _ _ <-. exact Hc.
    - cbn [run_batches] in Hrun.
      apply bind_inv_ok in Hrun as (t1 & w1 & st1 & t2 & H1 & H2 & _).
      eapply IH; [exact H2 |].
      eapply one_pass_counters_in_step; [exact H1 | exact Hc]. }
  induction epochs as [| batches rest IH]; intros st st' w w' t Hrun Hc.
  - injection Hrun as _ _ <-. exact Hc.
  - cbn [run_epochs] in Hrun.
    apply bind_inv_ok in Hrun as (t1 & w1 & st1 & t2 & H1 & H2 & _).
    eapply IH; [exact H2 |]. unfold run_epoch in H1.
    apply bind_inv_ok in H1 as (t3 & w3 & st3 & t4 & H3 & H4 & _).
    injection H4 as _ _ <-.
    apply Hb in H3; [| exact Hc]. exact H3.
Qed.

(** X9. The schedule counters keep pace with the trainer's step: they
    stand at it in a fresh run, after any passes that return, and after
    resuming from the checkpoint a pass in step writes; so the pass at
    step [n] of such a run hands the EMA update the decay of counter
    [n]. *)
Theorem schedules_keep_pace args acc :
  (forall params (opt0 : Optimizer) gns0,
     counters_in_step (fresh_state args params opt0 gns0))
  /\ (forall epochs (st st' : LState) (w w' : LFiles) t,
        passes args acc epochs st w = (t, w', Ok st') ->
        counters_in_step st -> counters_in_step st')
  /\ (forall (st st1 st' : LState) (w w1 w' : LFiles) inp t cur,
        counters_in_step st ->
        update_phase optimizer_step set_lr inp st w = (t, w1, Ok st1) ->
        resume_from args (checkpoint_of st1) cur w1 = ([], w', Ok st') ->
        counters_in_step st')
  /\ (forall (st : LState) (w : LFiles) inp,
        counters_in_step st ->
        trace_of (update_phase optimizer_step set_lr inp st w)
        = [EvOptStep; EvSchedStep;
           EvEmaUpdate (decay (ema_power (ema_sched st))
                          (ema_max_value (ema_sched st)) (step st));
           EvEmaSchedStep]).
Proof.
  split; [| split; [| split]].
  - intros params opt0 gns0. split; reflexivity.
  - intros epochs st st' w w' t. apply passes_counters_in_step.
  - intros st st1 st' w w1 w' inp t cur [He Hl] Hu Hres.
    destruct (update_phase_exec Optimizer optimizer_step set_lr inp st w)
      as (st2 & Hu' & _ & _ & Hes & Hsc & _ & _ & Hst).
    rewrite Hu in Hu'. injection Hu' as _ _ <-.
    apply resume_from_inv in Hres as (_ & _ & _ & Hs' & He' & _ & Hn').
    change (checkpoint_of st1 !! "sched")
      with (Some (@VSched Optimizer (sched st1))) in Hs'.
    change (checkpoint_of st1 !! "ema_sched")
      with (Some (@VEmaSched Optimizer (ema_sched st1))) in He'.
    change (checkpoint_of st1 !! "step")
      with (Some (@VInt Optimizer (step st1))) in Hn'.
    injection Hs' as Hs'. injection He' as He'. injection Hn' as Hn'.
    unfold counters_in_step. rewrite <- Hs', <- He', Hsc, Hes. cbn.
    split; lia.
  - intros st w inp [He _].
    destruct (update_phase_exec Optimizer optimizer_step set_lr inp st w)
      as (st2 & -> & _).
    unfold trace_of, update_events, ema_get_value. cbn. rewrite He.
    reflexivity.
Qed.

(** *** The first pass, and the sign of the intervals *)

Lemma periodic_at_step_0 args acc inp (st : LState) (w : LFiles) :
  step st = 0 -> demo_every args <> 0 ->
  exists w',
    periodic_phase inner_model lms_coeff args acc inp st w
    = ([EvDemo 0], w', Ok tt)
    /\ metrics_csv w' = metrics_csv w /\ pth_files w' = pth_files w.
Proof.
  intros Hst Hd.
  destruct (demo_exec Optimizer inner_model lms_coeff args acc inp st w)
    as (w' & He & Hm & Hp).
  exists w'. split; [| split; assumption].
  unfold periodic_phase.
  change [EvDemo 0] with ([EvDemo 0] ++ [] ++ [])%list.
  eapply bind_ok; [| eapply bind_ok].
  - unfold demo_trigger. rewrite <- (app_nil_l [EvDemo 0]).
    eapply bind_ok; [apply py_mod_nonzero; exact Hd |].
    cbv beta. rewrite Hst, Z.mod_0_l by exact Hd. cbn [Z.eqb].
    rewrite <- Hst. exact He.
  - unfold evaluate_trigger. rewrite Hst. reflexivity.
  - unfold save_trigger. rewrite Hst. reflexivity.
Qed.

(** X3. A pass at step 0, as the first pass of a fresh run is, draws a
    demo and neither evaluates nor saves, whatever the evaluate and save
    intervals are (zero included): after the update events its trace ends
    with the demo, and it leaves the metrics log and the checkpoints as
    they were. *)
Theorem first_pass_draws_demo_only args acc inp (st : LState) (w : LFiles) :
  step st = 0 -> demo_every args <> 0 ->
  (gns args = true -> is_Some (gns_stats st)) ->
  exists w' st',
    one_pass args acc inp st w
    = ((([EvZeroGrad; EvBackward] ++ if gns args then [EvGnsUpdate] else [])
        ++ update_events (ema_sched st) ++ [EvDemo 0])%list, w', Ok st')
    /\ step st' = 1
    /\ metrics_csv w' = metrics_csv w /\ pth_files w' = pth_files w.
Proof.
  intros Hst Hd Hg.
  destruct (backward_phase_defined Optimizer args acc inp st w Hg)
    as (st1 & Hb & _ & _ & _ & _ & Hes & _ & Hst1).
  destruct (update_phase_exec Optimizer optimizer_step set_lr inp st1 w)
    as (st2 & Hu & _ & _ & _ & _ & _ & _ & Hst2).
  assert (H0 : step st2 = 0) by (rewrite Hst2, Hst1; exact Hst).
  destruct (periodic_at_step_0 args acc inp st2 w H0 Hd)
    as (w' & Hp & Hm & Hf).
  exists w', (incr_step st2). split; [| split; [| split; assumption]].
  - unfold train_iteration. eapply bind_ok; [exact Hb |].
    rewrite <- Hes. eapply bind_ok; [exact Hu |].
    rewrite <- (app_nil_r [EvDemo 0]).
    eapply bind_ok; [exact Hp | reflexivity].
  - cbn. rewrite H0. reflexivity.
Qed.




(** *** Saving, then resuming *)

Lemma save_trigger_fires args acc (st : LState) (w : LFiles) :
  0 < step st -> save_every args <> 0 ->
  step st mod save_every args = 0 ->
  save_trigger args acc st w
  = ([EvSave (step st)],
     (if is_main_process acc
      then write_pth (pth_name args (step st)) (checkpoint_of st) w else w),
     Ok tt).
Proof.
  intros Hpos Hs Hz. unfold save_trigger.
  destruct (Z.ltb_spec 0 (step st)); [| lia].
  rewrite <- (app_nil_l [EvSave _]).
  eapply bind_ok; [apply py_mod_nonzero; exact Hs |].
  cbv beta. rewrite Hz. apply save_exec.
Qed.

(** X8. Saving and resuming compose with the loop: when a pass on the
    main process saves, the file it wrote, loaded and resumed from in a
    freshly set-up process with the same arguments, gives exactly the
    state the pass went on with, but for the epoch, which is one more. *)
Theorem resume_after_save_continues args acc inp (st : LState) (w : LFiles) :
  is_main_process acc = true ->
  demo_every args <> 0 -> save_every args <> 0 ->
  0 < step st -> step st mod save_every args = 0 ->
  gns_as_configured args st ->
  exists t w' st',
    one_pass args acc inp st w = (t, w', Ok st')
    /\ In (EvSave (step st)) t
    /\ forall params opt0 gns0,
         (let* ckpt := torch_load (pth_name args (step st)) in
          resume_from args ckpt (fresh_state args params opt0 gns0)) w'
         = ([], w', Ok (incr_epoch st')).
Proof.
  intros Hmain Hd Hs Hpos Hz Hcfg.
  assert (Hg : gns args = true -> is_Some (gns_stats st))
    by (intros Hg; apply Hcfg; exact Hg).
  destruct (backward_phase_defined Optimizer args acc inp st w Hg)
    as (st1 & Hb & _ & _ & _ & _ & _ & _ & Hst1).
  pose proof (backward_phase_fields _ _ _ _ _ _ _ _ Hb)
    as (_ & _ & _ & _ & _ & _ & _ & _ & Hg1).
  destruct (update_phase_exec Optimizer optimizer_step set_lr inp st1 w)
    as (st2 & Hu & _ & _ & _ & _ & Hg2 & _ & Hst2).
  assert (Hn : step st2 = step st) by (rewrite Hst2; exact Hst1).
  destruct (demo_trigger_defined Optimizer inner_model lms_coeff args acc
              inp st2 w Hd) as [w1 H1].
  destruct (evaluate_trigger_exec Optimizer args acc inp st2 w1)
    as [w2 H2].
  pose proof (save_trigger_fires args acc st2 w2) as H3.
  rewrite Hn, Hmain in H3. specialize (H3 Hpos Hs Hz).
  do 3 eexists. split; [| split].
  - unfold train_iteration. eapply bind_ok; [exact Hb |].
    eapply bind_ok; [exact Hu |].
    eapply bind_ok; [| reflexivity].
    unfold periodic_phase. eapply bind_ok; [exact H1 |].
    eapply bind_ok; [exact H2 | exact H3].
  - apply in_or_app. right. apply in_or_app. right.
    apply in_or_app. left. apply in_or_app. right.
    apply in_or_app. right. left. reflexivity.
  - intros params opt0 gns0.
    rewrite <- (app_nil_l []).
    eapply bind_ok.
    + unfold torch_load. cbn [write_pth pth_files].
      rewrite lookup_insert_eq. reflexivity.
    + rewrite (resume_from_checkpoint Optimizer)
        by (apply fresh_state_gns).
      assert (Hres : resumed_gns args (gns_stats st2)
                       (gns_stats (fresh_state args params opt0 gns0))
                     = gns_stats st2).
      { unfold resumed_gns, fresh_state. cbn [gns_stats]. rewrite Hg2.
        destruct (gns args) eqn:Hga.
        - destruct (gns_stats st1) eqn:Hst1g; [reflexivity |].
          exfalso.
          assert (Hsome : is_Some (gns_stats st))
            by (apply Hcfg; exact Hga).
          apply Hg1 in Hsome. destruct Hsome as [? Hsome]. discriminate.
        - destruct (gns_stats st1) eqn:Hst1g; [| reflexivity].
          exfalso. assert (Hsome : is_Some (gns_stats st)).
          { apply Hg1. eauto. }
          apply Hcfg in Hsome. congruence. }
      rewrite Hres. reflexivity.
Qed.

(** X12. The [gns_stats] field is optional on the way in: a checkpoint
    without it resumes, with the estimator built before the resume branch
    kept; and without [--gns] the field is not looked at, whatever it
    holds. *)
Theorem resume_without_gns_stats args (saved cur : LState) (w : LFiles) :
  resume_from args (delete "gns_stats" (checkpoint_of saved)) cur w
  = ([], w,
     Ok {| model := model saved; model_ema := model_ema saved;
           opt := opt saved; sched := sched saved;
           ema_sched := ema_sched saved; gns_stats := gns_stats cur;
           epoch := epoch saved + 1; step := step saved + 1 |})
  /\ (gns args = false ->
      forall ckpt v,
        resume_from args (<["gns_stats" := v]> ckpt) cur w
        = resume_from args ckpt cur w).
Proof.
  split.
  - unfold resume_from, resume_gns, checkpoint_of.
    destruct (gns args); reflexivity.
  - intros Hg ckpt v. unfold resume_from, resume_gns, ckpt_get.
    rewrite Hg. rewrite !lookup_insert_ne by discriminate. reflexivity.
Qed.

(** *** The setup *)

(** X13. The setup fails before it writes: if it raises, it has logged
    nothing and every file, the metrics log included, is as it was; a
    resume path that names no file raises [FileNotFoundError], and a
    checkpoint without a [model] field raises [KeyError]. *)
Theorem setup_fails_before_writing args acc params opt0 gns0 (w : LFiles) :
  (forall e,
     outcome (main_setup args acc params opt0 gns0 w) = Raise e ->
     main_setup args acc params opt0 gns0 w = ([], w, Raise e))
  /\ (forall c path,
        resume args = Some (String c path) ->
        pth_files w !! String c path = None ->
        main_setup args acc params opt0 gns0 w
        = ([], w, Raise (FileNotFoundError (String c path))))
  /\ (forall c path ckpt,
        resume args = Some (String c path) ->
        pth_files w !! String c path = Some ckpt ->
        ckpt !! "model" = None ->
        main_setup args acc params opt0 gns0 w
        = ([], w, Raise (KeyError "model"))).
Proof.
  split; [| split].
  - intros e. unfold main_setup.
    destruct (load_or_init_shape args (fresh_state args params opt0 gns0) w)
      as [[st | e'] Hl].
    + assert (Hk : exists w2,
                (open_metrics_log acc;; ret st) w = ([], w2, Ok st)).
      { unfold open_metrics_log, bind, modify, ret.
        destruct (is_main_process acc); eexists; reflexivity. }
      destruct Hk as [w2 Hk].
      erewrite bind_ok; [| exact Hl | exact Hk]. discriminate.
    + erewrite bind_raise; [| exact Hl]. intros [= ->]. reflexivity.
  - intros c path Hr Hnone. unfold main_setup.
    eapply bind_raise. unfold load_or_init. rewrite Hr.
    eapply bind_raise. unfold torch_load. rewrite Hnone. reflexivity.
  - intros c path ckpt Hr Hsome Hnone. unfold main_setup.
    eapply bind_raise. unfold load_or_init. rewrite Hr.
    rewrite <- (app_nil_l []). eapply bind_ok.
    + unfold torch_load. rewrite Hsome. reflexivity.
    + unfold resume_from. eapply bind_raise.
      unfold ckpt_get. rewrite Hnone. reflexivity.
Qed.

(** X14. Without [--resume], and likewise with an empty resume path, the
    setup starts afresh: step 0, epoch 0, both schedules at counter 0,
    the EMA model a copy of the model, and no file read; on the main
    process the metrics log is opened. *)
Theorem setup_without_resume args acc params opt0 gns0 (w : LFiles) :
  resume args = None \/ resume args = Some EmptyString ->
  exists st,
    main_setup args acc params opt0 gns0 w
    = ([], (if is_main_process acc then open_metrics_file w else w), Ok st)
    /\ step st = 0 /\ epoch st = 0
    /\ lr_last_epoch (sched st) = 0 /\ ema_last_epoch (ema_sched st) = 0
    /\ model st = params /\ model_ema st = params /\ opt st = opt0.
Proof.
  intros Hr. exists (fresh_state args params opt0 gns0).
  split; [| repeat split].
  unfold main_setup, load_or_init, open_metrics_log.
  destruct Hr as [-> | ->]; destruct (is_main_process acc); reflexivity.
Qed.

(** X17. A run never rewrites an existing metrics log and never gives it a
    second header: started with the log in place, the setup and the
    passes leave it as the old contents followed, on the main process,
    by the rows of the evaluations that ran; started afresh on the main
    process without a log, they leave the header followed by those
    rows. *)
Theorem restart_appends_to_log args acc params opt0 gns0 epochs (w : LFiles) :
  let run := whole_run args acc params opt0 gns0 epochs w in
  (forall c,
     metrics_csv w = Some c ->
     metrics_csv (world_of run)
     = Some (c +:+ if is_main_process acc then rows_of (trace_of run)
                   else EmptyString))
  /\ (metrics_csv w = None -> is_main_process acc = true ->
      resume args = None ->
      metrics_csv (world_of run)
      = Some (("step,fid,kid" +:+ newline) +:+ rows_of (trace_of run))).
Proof.
  cbv zeta. split.
  - intros c Hc. revert w c Hc.
    change (appends_rows acc (whole_run args acc params opt0 gns0 epochs)).
    unfold main_run. apply appends_bind.
    + unfold main_setup. apply appends_bind.
      * intros w c Hc.
        destruct (load_or_init_shape args
                    (fresh_state args params opt0 gns0) w) as [r ->].
        cbn. rewrite Hc.
        destruct (is_main_process acc); cbn; rewrite append_nil_r;
          reflexivity.
      * intros st. apply appends_bind; [| intros _; apply appends_ret].
        intros w c Hc. unfold open_metrics_log, modify, ret.
        destruct (is_main_process acc); cbn.
        -- unfold open_metrics_file. rewrite Hc, Hc, append_nil_r.
           reflexivity.
        -- rewrite Hc, append_nil_r. reflexivity.
    + intros st. apply appends_run_epochs.
  - intros Hnone Hmain Hr. unfold main_run.
    set (st0 := fresh_state args params opt0 gns0).
    assert (Hsetup : main_setup args acc params opt0 gns0 w
                     = ([], open_metrics_file w, Ok st0)).
    { unfold main_setup, load_or_init, open_metrics_log.
      rewrite Hr, Hmain. reflexivity. }
    assert (Hopen : metrics_csv (open_metrics_file w)
                    = Some ("step,fid,kid" +:+ newline)).
    { unfold open_metrics_file. rewrite Hnone. reflexivity. }
    pose proof (appends_run_epochs Optimizer optimizer_step set_lr
                  inner_model lms_coeff args acc epochs st0 _ _ Hopen)
      as Hrun.
    rewrite Hmain in Hrun.
    unfold bind. rewrite Hsetup.
    destruct (run_epochs optimizer_step set_lr inner_model lms_coeff args
                acc epochs st0 (open_metrics_file w)) as [[t' w2] r].
    exact Hrun.
Qed.

End LoopFacts.

(** ** File names *)

Section FileNames.

Lemma zeros_succ (k : nat) :
  String.concat EmptyString (repeat "0" (S k))
  = String "0"%char (String.concat EmptyString (repeat "0" k)).
Proof. destruct k; reflexivity. Qed.

Lemma uint_of_zeros (k : nat) (s : string) :
  NilEmpty.uint_of_string
    (String.concat EmptyString (repeat "0" k) +:+ s)
  = option_map (Nat.iter k Decimal.D0) (NilEmpty.uint_of_string s).
Proof.
  induction k as [| k IH].
  - change (NilEmpty.uint_of_string s
            = option_map (fun d => d) (NilEmpty.uint_of_string s)).
    destruct (NilEmpty.uint_of_string s); reflexivity.
  - rewrite zeros_succ.
    change (String "0"%char ?a +:+ s) with (String "0"%char (a +:+ s)).
    cbn [NilEmpty.uint_of_string]. rewrite IH.
    destruct (NilEmpty.uint_of_string s); reflexivity.
Qed.

Lemma of_uint_zeros (k : nat) (d : Decimal.uint) :
  Z.of_uint (Nat.iter k Decimal.D0 d) = Z.of_uint d.
Proof. induction k as [| k IH]; [reflexivity |]. cbn. exact IH. Qed.

(** A non-empty string of digits reads as a non-negative numeral. *)
Lemma int_of_digits (s : string) (d : Decimal.uint) :
  NilEmpty.uint_of_string s = Some d -> s <> EmptyString ->
  NilZero.int_of_string s = Some (Decimal.Pos d).
Proof.
  intros Hs Hne. destruct s as [| a s']; [contradiction |].
  unfold NilZero.int_of_string.
  destruct (Ascii.eqb_spec a "-") as [-> | Ha].
  - cbn in Hs. destruct (NilEmpty.uint_of_string s'); discriminate.
  - unfold NilZero.uint_of_string. rewrite Hs. reflexivity.
Qed.

Lemma digits_of_nat (z : Z) :
  0 <= z ->
  exists d,
    NilEmpty.uint_of_string (py_str z) = Some d /\ Z.of_uint d = z
    /\ py_str z <> EmptyString.
Proof.
  intros Hz. unfold py_str.
  pose proof (DecimalZ.of_to z) as Hrt.
  destruct z as [| p | p]; [| | lia].
  - exists (Decimal.D0 Decimal.Nil). repeat split. discriminate.
  - cbn [Z.to_int] in *. cbn [NilZero.string_of_int].
    destruct (NilZero.usu_gen (Pos.to_uint p)) as [Hu | Hu].
    + exists (Pos.to_uint p).
      unfold NilZero.uint_of_string in Hu.
      destruct (NilZero.string_of_uint (Pos.to_uint p)) eqn:Hd;
        [discriminate |].
      split; [exact Hu |]. split; [exact Hrt | discriminate].
    + unfold NilZero.uint_of_string in Hu.
      destruct (NilZero.string_of_uint (Pos.to_uint p)) eqn:Hd;
        [discriminate |].
      exfalso. unfold NilZero.string_of_uint in Hd.
      destruct (Pos.to_uint p) as [| u | u | u | u | u | u | u | u | u | u];
        [cbn in Hrt; discriminate | ..];
        rewrite <- Hd in Hu; rewrite NilEmpty.usu in Hu;
        injection Hu as Hu; try discriminate Hu.
      subst u. cbn in Hrt. discriminate.
Qed.

Lemma parse_zfill (width : nat) (z : Z) :
  0 <= z ->
  exists d,
    NilEmpty.uint_of_string (zfill width (py_str z)) = Some d
    /\ Z.of_uint d = z /\ zfill width (py_str z) <> EmptyString.
Proof.
  intros Hz. destruct (digits_of_nat z Hz) as (d & Hd & Hv & Hne).
  exists (Nat.iter (width - String.length (py_str z)) Decimal.D0 d).
  unfold zfill. rewrite uint_of_zeros, Hd. split; [reflexivity |].
  split; [rewrite of_uint_zeros; exact Hv |].
  destruct (py_str z) as [| a s']; [contradiction |].
  destruct (String.concat EmptyString _); discriminate.
Qed.

Lemma parse_fmt08 (z : Z) : parse_int (fmt08 z) = Some z.
Proof.
  unfold parse_int, fmt08. destruct (Z.ltb_spec z 0) as [Hneg | Hpos].
  - destruct (parse_zfill 7 (- z) ltac:(lia)) as (d & Hd & Hv & Hne).
    change ("-" +:+ ?s) with (String "-"%char s).
    unfold NilZero.int_of_string. cbn [Ascii.eqb Bool.eqb].
    unfold NilZero.uint_of_string.
    destruct (zfill 7 (py_str (- z))) as [| a s'] eqn:Hs;
      [contradiction |].
    rewrite Hd. cbn [option_map Z.of_int]. f_equal. lia.
  - destruct (parse_zfill 8 z Hpos) as (d & Hd & Hv & Hne).
    rewrite (int_of_digits _ _ Hd Hne). cbn [option_map Z.of_int].
    f_equal. exact Hv.
Qed.

Lemma fmt08_inj (n m : Z) : fmt08 n = fmt08 m -> n = m.
Proof.
  intros H. pose proof (parse_fmt08 n) as Hn.
  rewrite H, parse_fmt08 in Hn. congruence.
Qed.


Lemma append_cancel_l (s a b : string) : s +:+ a = s +:+ b -> a = b.
Proof.
  induction s as [| c s IH]; [trivial |].
  change (String c (s +:+ a) = String c (s +:+ b) -> a = b).
  intros [= H]. exact (IH H).
Qed.

Lemma length_append (a b : string) :
  String.length (a +:+ b) = (String.length a + String.length b)%nat.
Proof.
  induction a as [| c a IH]; [reflexivity |].
  change (S (String.length (a +:+ b))
          = S (String.length a + String.length b)).
  rewrite IH. reflexivity.
Qed.

Lemma append_cancel_r (t : string) :
  forall a b : string, a +:+ t = b +:+ t -> a = b.
Proof.
  induction a as [| c a IH]; intros [| c' b] H.
  - reflexivity.
  - apply (f_equal String.length) in H.
    rewrite !length_append in H. cbn [String.length] in H. lia.
  - apply (f_equal String.length) in H.
    rewrite !length_append in H. cbn [String.length] in H. lia.
  - change (String c (a +:+ t) = String c' (b +:+ t)) in H.
    injection H as -> H. f_equal. exact (IH b H).
Qed.

Lemma pth_name_inj args (n m : Z) :
  pth_name args n = pth_name args m -> n = m.
Proof.
  unfold pth_name. intros H.
  apply append_cancel_l, append_cancel_l, append_cancel_r in H.
  exact (fmt08_inj n m H).
Qed.

(** X15. The zero-filled step of a file name reads back as the step, for
    every step, negative ones included; so two steps with the same
    zero-filled form are the same step, and so are two steps with the
    same checkpoint file name. *)
Theorem fmt08_reads_back (z : Z) :
  parse_int (fmt08 z) = Some z
  /\ (forall m, fmt08 z = fmt08 m -> z = m)
  /\ (forall args m, pth_name args z = pth_name args m -> z = m).
Proof.
  split; [apply parse_fmt08 |]. split.
  - intros m. apply fmt08_inj.
  - intros args m. apply pth_name_inj.
Qed.

Section Frame.
Variable Optimizer : Type.
Variable optimizer_step : Optimizer -> Tensor -> Tensor -> Optimizer * Tensor.
Variable set_lr : Optimizer -> R -> Optimizer.
Variable inner_model : Tensor -> Tensor -> R -> Tensor.
Variable lms_coeff : nat -> list R -> nat -> nat -> R.

Lemma bind_lookup_kept {A B} (path : string)
    (m : Exec (World Optimizer) A) (f : A -> Exec (World Optimizer) B) w :
  pth_files (world_of (m w)) !! path = pth_files w !! path ->
  (forall t w1 a, m w = (t, w1, Ok a) ->
     pth_files (world_of (f a w1)) !! path = pth_files w1 !! path) ->
  pth_files (world_of (bind m f w)) !! path = pth_files w !! path.
Proof.
  intros Hm Hf. unfold bind.
  destruct (m w) as [[t w1] [a | e]] eqn:Hmw; [| exact Hm].
  specialize (Hf t w1 a eq_refl). destruct (f a w1) as [[t' w2] r].
  cbn in *. congruence.
Qed.

Lemma periodic_lookup_kept args acc inp (st : TrainState Optimizer)
    (w : World Optimizer) path :
  path <> pth_name args (step st) ->
  pth_files (world_of (periodic_phase inner_model lms_coeff args acc inp
                         st w)) !! path
  = pth_files w !! path.
Proof.
  intros Hp. unfold periodic_phase.
  apply bind_lookup_kept; [| intros _ w1 _ _; apply bind_lookup_kept].
  - unfold demo_trigger. apply bind_lookup_kept.
    + rewrite py_mod_world. reflexivity.
    + intros t w1 r _. destruct (r =? 0); [| reflexivity].
      destruct (demo_exec Optimizer inner_model lms_coeff args acc inp st w1)
        as (w' & -> & _ & Hf). cbn. rewrite Hf. reflexivity.
  - unfold evaluate_trigger. destruct (_ && _); [| reflexivity].
    apply bind_lookup_kept.
    + rewrite py_mod_world. reflexivity.
    + intros t w2 r _. destruct (r =? 0); [| reflexivity].
      rewrite evaluate_exec. destruct (is_main_process acc); reflexivity.
  - intros _ w2 _ _. unfold save_trigger.
    destruct (0 <? step st); [| reflexivity].
    apply bind_lookup_kept.
    + rewrite py_mod_world. reflexivity.
    + intros t w3 r _. destruct (r =? 0); [| reflexivity].
      rewrite save_exec. destruct (is_main_process acc); [| reflexivity].
      cbn. apply lookup_insert_ne. congruence.
Qed.

(** X16. File names of different steps differ, so a pass writes no
    checkpoint but its own: however it ends, the checkpoint file of every
    other step is after the pass what it was before. *)
Theorem pass_keeps_other_checkpoints args acc inp
    (st : TrainState Optimizer) (w : World Optimizer) (n : Z) :
  n <> step st ->
  pth_name args n <> pth_name args (step st)
  /\ pth_files
       (world_of (train_iteration optimizer_step set_lr inner_model
                    lms_coeff args acc inp st w)) !! pth_name args n
     = pth_files w !! pth_name args n.
Proof.
  intros Hn.
  assert (Hne : pth_name args n <> pth_name args (step st)).
  { intros H. apply Hn. exact (pth_name_inj args _ _ H). }
  split; [exact Hne |]. unfold train_iteration.
  apply bind_lookup_kept.
  - unfold backward_phase.
    destruct (gns args); [destruct (gns_stats st) |]; reflexivity.
  - intros t1 w1 st1 Hb.
    apply (backward_phase_fields Optimizer) in Hb
      as (-> & _ & _ & _ & _ & _ & _ & Hst1 & _).
    apply bind_lookup_kept.
    + destruct (update_phase_exec Optimizer optimizer_step set_lr inp st1 w)
        as (st2 & -> & _). reflexivity.
    + intros t2 w2 st2 Hu.
      destruct (update_phase_exec Optimizer optimizer_step set_lr inp st1 w)
        as (st2' & Hu' & _ & _ & _ & _ & _ & _ & Hst2).
      rewrite Hu in Hu'. injection Hu' as _ -> <-.
      apply bind_lookup_kept; [| reflexivity].
      apply periodic_lookup_kept. rewrite Hst2, Hst1. exact Hne.
Qed.

End Frame.

End FileNames.

(** ** The model configuration and the demo grid *)

Section Configuration.

Lemma py_repeat_length {A} (x : A) (k : Z) :
  Z.of_nat (length (py_repeat x k)) = Z.max k 0.
Proof. unfold py_repeat. rewrite repeat_length. lia. Qed.



End Configuration.

(** ** The further theorems at the sample inputs *)



Lemma first_pass_draws_demo_only_witness :
  exists w' st',
    train_iteration Sample.sgd_step Sample.sgd_set_lr Sample.backbone
      Sample.coeff Sample.args Sample.main_acc Sample.inp Scenario.fresh
      Sample.files
    = ([EvZeroGrad; EvBackward; EvOptStep; EvSchedStep;
        EvEmaUpdate (ema_get_value (ema_sched Scenario.fresh));
        EvEmaSchedStep; EvDemo 0], w', Ok st')
    /\ step st' = 1
    /\ metrics_csv w' = metrics_csv Sample.files
    /\ pth_files w' = pth_files Sample.files.
Proof.
  apply (first_pass_draws_demo_only R Sample.sgd_step Sample.sgd_set_lr
           Sample.backbone Sample.coeff Sample.args Sample.main_acc
           Sample.inp Scenario.fresh Sample.files).
  - reflexivity.
  - discriminate.
  - discriminate.
Defined.


Lemma run_deletes_no_file_witness :
  is_Some
    (metrics_csv
       (world_of
          (main_run Sample.sgd_step Sample.sgd_set_lr Sample.backbone
             Sample.coeff Sample.args Sample.main_acc [1%R] (3 / 10000)%R
             Sample.gns0 [[Sample.inp]] Sample.files))).
Proof.
  apply (proj1 (run_deletes_no_file R Sample.sgd_step Sample.sgd_set_lr
                  Sample.backbone Sample.coeff Sample.args Sample.main_acc
                  [1%R] (3 / 10000)%R Sample.gns0 [[Sample.inp]]
                  Sample.files)).
  eexists. reflexivity.
Defined.

Lemma resume_after_save_continues_witness :
  exists t w' st',
    train_iteration Sample.sgd_step Sample.sgd_set_lr Sample.backbone
      Sample.coeff Sample.args Sample.main_acc Sample.inp Sample.st
      Sample.files = (t, w', Ok st')
    /\ In (EvSave 10000) t
    /\ forall params opt0 gns0,
         (let* ckpt := torch_load (pth_name Sample.args 10000) in
          resume_from Sample.args ckpt
            (fresh_state Sample.args params opt0 gns0)) w'
         = ([], w', Ok (incr_epoch st')).
Proof.
  apply (resume_after_save_continues R Sample.sgd_step Sample.sgd_set_lr
           Sample.backbone Sample.coeff Sample.args Sample.main_acc
           Sample.inp Sample.st Sample.files).
  - reflexivity.
  - discriminate.
  - discriminate.
  - reflexivity.
  - reflexivity.
  - split.
    + intros [g Hg]. discriminate.
    + discriminate.
Defined.

Lemma schedules_keep_pace_witness :
  trace_of
    (update_phase Sample.sgd_step Sample.sgd_set_lr Sample.inp Sample.st
       Sample.files)
  = [EvOptStep; EvSchedStep;
     EvEmaUpdate (decay (3 / 4) (999 / 1000) 10000); EvEmaSchedStep].
Proof.
  apply (proj2 (proj2 (proj2
           (schedules_keep_pace R Sample.sgd_step Sample.sgd_set_lr
              Sample.backbone Sample.coeff Sample.args Sample.main_acc)))
           Sample.st Sample.files Sample.inp).
  split; reflexivity.
Defined.

Lemma run_advances_counters_witness :
  exists t w' st',
    run_epochs Sample.sgd_step Sample.sgd_set_lr Sample.backbone
      Sample.coeff Sample.args Sample.main_acc
      [[Sample.inp; Sample.inp]; [Sample.inp]] Sample.st Sample.files
    = (t, w', Ok st')
    /\ step st' = 10000 + 3 /\ epoch st' = 3 + 2.
Proof.
  do 3 eexists. split; [reflexivity |].
  eapply (run_advances_counters R Sample.sgd_step Sample.sgd_set_lr
            Sample.backbone Sample.coeff Sample.args Sample.main_acc
            [[Sample.inp; Sample.inp]; [Sample.inp]] Sample.st _
            Sample.files).
  reflexivity.
Defined.


Lemma resume_without_gns_stats_witness :
  resume_from Sample.args
    (<["gns_stats" := VInt 7]> (checkpoint_of Sample.st)) Scenario.fresh
    Sample.files
  = resume_from Sample.args (checkpoint_of Sample.st) Scenario.fresh
      Sample.files.
Proof.
  apply (proj2 (resume_without_gns_stats R Sample.args Sample.st
                  Scenario.fresh Sample.files)).
  reflexivity.
Defined.

Lemma setup_fails_before_writing_witness :
  main_setup Scenario.args_missing Sample.main_acc [1%R] (3 / 10000)%R
    Sample.gns0 Sample.files
  = ([], Sample.files, Raise (FileNotFoundError "missing.pth")).
Proof.
  apply (proj1 (proj2 (setup_fails_before_writing R Scenario.args_missing
                         Sample.main_acc [1%R] (3 / 10000)%R Sample.gns0
                         Sample.files))).
  - reflexivity.
  - reflexivity.
Defined.

Lemma setup_without_resume_witness :
  exists st,
    main_setup Sample.args Sample.main_acc [1%R] (3 / 10000)%R Sample.gns0
      Sample.files
    = ([], open_metrics_file Sample.files, Ok st)
    /\ step st = 0 /\ epoch st = 0
    /\ lr_last_epoch (sched st) = 0 /\ ema_last_epoch (ema_sched st) = 0
    /\ model st = [1%R] /\ model_ema st = [1%R]
    /\ opt st = (3 / 10000)%R.
Proof.
  apply (setup_without_resume R Sample.args Sample.main_acc [1%R]
           (3 / 10000)%R Sample.gns0 Sample.files).
  left. reflexivity.
Defined.

Lemma pass_keeps_other_checkpoints_witness :
  pth_name Sample.args 5000 <> pth_name Sample.args 10000
  /\ pth_files
       (world_of (train_iteration Sample.sgd_step Sample.sgd_set_lr
                    Sample.backbone Sample.coeff Sample.args
                    Sample.main_acc Sample.inp Sample.st Sample.files))
       !! pth_name Sample.args 5000
     = pth_files Sample.files !! pth_name Sample.args 5000.
Proof.
  apply (pass_keeps_other_checkpoints R Sample.sgd_step Sample.sgd_set_lr
           Sample.backbone Sample.coeff Sample.args Sample.main_acc
           Sample.inp Sample.st Sample.files 5000).
  discriminate.
Defined.

Lemma restart_appends_to_log_witness :
  let run :=
    main_run Sample.sgd_step Sample.sgd_set_lr Sample.backbone Sample.coeff
      Sample.args Sample.main_acc [1%R] (3 / 10000)%R Sample.gns0
      [[Sample.inp]] Sample.files in
  metrics_csv (world_of run)
  = Some (("step,fid,kid" +:+ newline) +:+ rows_of (trace_of run)).
Proof.
  apply (proj1 (restart_appends_to_log R Sample.sgd_step Sample.sgd_set_lr
                  Sample.backbone Sample.coeff Sample.args Sample.main_acc
                  [1%R] (3 / 10000)%R Sample.gns0 [[Sample.inp]]
                  Sample.files)).
  reflexivity.
Defined.

Lemma fmt08_reads_back_witness :
  parse_int (fmt08 (-5)) = Some (-5) /\ 10000 = 10000.
Proof.
  split.
  - apply (proj1 (fmt08_reads_back (-5))).
  - apply (proj2 (proj2 (fmt08_reads_back 10000)) Sample.args 10000).
    reflexivity.
Defined.
